(** * nbcollection.ci.generator.datatypes

    A shallow embedding of the repository-reference classification and of the
    repository session life cycle of [nbcollection/ci/generator/datatypes.py],
    with the properties of its specification settled against it. *)

From Stdlib Require Import Bool Arith List Ascii String ZArith Lia.
Import ListNotations.

Open Scope bool_scope.
Open Scope string_scope.

(** ** Python values, exceptions and results *)

Inductive RepoType : Type :=
| Local
| GithubGIT
| GithubHTTPS.

Inductive URLType : Type :=
| GithubRepoURL
| GithubPullRequest.

Inductive RemoteScheme : Type :=
| Git
| Http
| Https.

(** What a [ValueError] raised by the code says. *)
Inductive value_error : Type :=
| NotEnoughValues (expected got : nat)
| TooManyValues (expected : nat)
| InvalidIPv6URL.

(** The argument an exception was constructed with. *)
Inductive exn_arg : Type :=
| ArgNone
| ArgStr (s : string)
| ArgRepoType (t : RepoType).

(** One call on the GitPython collaborator. *)
Inductive GitCall : Type :=
| Repo_clone_from (url : option string) (to_path : string)
| Repo_open (path : string)
| git_add (filepath : string)
| index_diff (ref : string)
| index_commit (message : string)
| repo_remote (name : string)
| remote_push.

Inductive exn : Type :=
| NotImplementedError (arg : exn_arg)
| ValueError (v : value_error)
| IndexError
| InvalidRepoPath (msg : string)
| InvalidGitRepositoryError
| FileExistsError
| GitCommandError (call : GitCall).

Inductive result (A : Type) : Type :=
| Ok (a : A)
| Raise (e : exn).

Arguments Ok {A} a.
Arguments Raise {A} e.

Definition rbind {A B : Type} (r : result A) (k : A -> result B) : result B :=
  match r with
  | Ok a => k a
  | Raise e => Raise e
  end.

Declare Scope result_scope.
Delimit Scope result_scope with result.
Notation "x <- r ;; k" := (rbind r (fun x => k))
  (at level 61, r at next level, right associativity) : result_scope.
Notation "' p <- r ;; k" := (rbind r (fun x => let 'p := x in k))
  (at level 61, p pattern, r at next level, right associativity) : result_scope.

(** ** The [str] methods the module calls *)

Module Str.

(** [c in chars], for a character [c]. *)
Fixpoint mem (c : ascii) (chars : string) : bool :=
  match chars with
  | EmptyString => false
  | String a rest => Ascii.eqb c a || mem c rest
  end.

(** [s.startswith(pre)]. *)
Fixpoint startswith (pre s : string) : bool :=
  match pre, s with
  | EmptyString, _ => true
  | String _ _, EmptyString => false
  | String a pre', String b s' => Ascii.eqb a b && startswith pre' s'
  end.

(** [s.endswith(suf)]. *)
Fixpoint endswith (suf s : string) : bool :=
  String.eqb s suf ||
  match s with
  | EmptyString => false
  | String _ s' => endswith suf s'
  end.

(** [sub in s]. *)
Fixpoint contains (sub s : string) : bool :=
  startswith sub s ||
  match s with
  | EmptyString => false
  | String _ s' => contains sub s'
  end.

Fixpoint drop (n : nat) (s : string) : string :=
  match n, s with
  | O, _ => s
  | S _, EmptyString => EmptyString
  | S n', String _ s' => drop n' s'
  end.

Fixpoint take (n : nat) (s : string) : string :=
  match n, s with
  | O, _ => EmptyString
  | S _, EmptyString => EmptyString
  | S n', String a s' => String a (take n' s')
  end.

(** [s[:-n]] for a positive literal [n]. *)
Definition drop_last (n : nat) (s : string) : string :=
  take (String.length s - n) s.

(** [s.split(sep)] and [s.split(sep, maxsplit)] for a one-character
    separator: [maxsplit = None] is the unbounded form. *)
Fixpoint split (sep : ascii) (maxsplit : option nat) (s : string) : list string :=
  match s with
  | EmptyString => [EmptyString]
  | String a s' =>
      let cut :=
        Ascii.eqb a sep &&
        match maxsplit with
        | Some O => false
        | _ => true
        end in
      if cut then
        EmptyString :: split sep (option_map Nat.pred maxsplit) s'
      else
        match split sep maxsplit s' with
        | h :: t => String a h :: t
        | [] => [String a EmptyString]
        end
  end.

(** [s.rsplit(sep, 1)]: cut at the rightmost occurrence of [sep]. *)
Fixpoint rsplit1_at (sep s : string) : option (string * string) :=
  match s with
  | EmptyString => None
  | String a s' =>
      match rsplit1_at sep s' with
      | Some (h, t) => Some (String a h, t)
      | None =>
          if startswith sep s
          then Some (EmptyString, drop (String.length sep) s)
          else None
      end
  end.

Definition rsplit1 (sep s : string) : list string :=
  match rsplit1_at sep s with
  | Some (h, t) => [h; t]
  | None => [s]
  end.

Fixpoint lstrip (chars s : string) : string :=
  match s with
  | EmptyString => EmptyString
  | String a s' => if mem a chars then lstrip chars s' else s
  end.

Fixpoint rstrip (chars s : string) : string :=
  match s with
  | EmptyString => EmptyString
  | String a s' =>
      match rstrip chars s' with
      | EmptyString => if mem a chars then EmptyString else String a EmptyString
      | r => String a r
      end
  end.

(** [s.strip(chars)]: [chars] is a set of characters, not a prefix. *)
Definition strip (chars s : string) : string :=
  rstrip chars (lstrip chars s).

(** [span p s]: the longest prefix of [s] without a character satisfying
    [p], and the rest. *)
Fixpoint span (p : ascii -> bool) (s : string) : string * string :=
  match s with
  | EmptyString => (EmptyString, EmptyString)
  | String a s' =>
      if p a then (EmptyString, s)
      else let '(h, t) := span p s' in (String a h, t)
  end.

Fixpoint forallb (p : ascii -> bool) (s : string) : bool :=
  match s with
  | EmptyString => true
  | String a s' => p a && forallb p s'
  end.

Definition is_upper (c : ascii) : bool :=
  let n := nat_of_ascii c in ((65 <=? n)%nat && (n <=? 90)%nat).

Definition is_lower (c : ascii) : bool :=
  let n := nat_of_ascii c in ((97 <=? n)%nat && (n <=? 122)%nat).

Definition is_digit (c : ascii) : bool :=
  let n := nat_of_ascii c in ((48 <=? n)%nat && (n <=? 57)%nat).

Definition is_alpha (c : ascii) : bool := is_upper c || is_lower c.

Definition lower_char (c : ascii) : ascii :=
  if is_upper c then ascii_of_nat (nat_of_ascii c + 32) else c.

Fixpoint lower (s : string) : string :=
  match s with
  | EmptyString => EmptyString
  | String a s' => String (lower_char a) (lower s')
  end.

End Str.

(** Subscripting a list, [l[i]]. *)
Definition getitem (l : list string) (i : nat) : result string :=
  match nth_error l i with
  | Some s => Ok s
  | None => Raise IndexError
  end.

(** [a, b = l]. *)
Definition unpack2 (l : list string) : result (string * string) :=
  match l with
  | [a; b] => Ok (a, b)
  | _ :: _ :: _ :: _ => Raise (ValueError (TooManyValues 2))
  | _ => Raise (ValueError (NotEnoughValues 2 (List.length l)))
  end.

(** [a, b, c = l]. *)
Definition unpack3 (l : list string) : result (string * string * string) :=
  match l with
  | [a; b; c] => Ok (a, b, c)
  | _ :: _ :: _ :: _ :: _ => Raise (ValueError (TooManyValues 3))
  | _ => Raise (ValueError (NotEnoughValues 3 (List.length l)))
  end.

(** ** [urllib.parse.urlparse]

    The module parses HTTP locators with the standard library's [urlparse].
    The model follows [urlsplit] and the parameter split of [urlparse]: the
    scheme is what precedes the first colon when it is a letter followed by
    scheme characters, the network location is what follows a leading double
    slash up to the first of slash, question mark and hash, then fragment,
    query and the parameters of the last path segment are cut off.  A network
    location with one square bracket and not the other is a [ValueError].

    Three steps of [urlsplit] are left out: leading blanks and control
    characters are not stripped, tab, carriage return and line feed are not
    removed, and a host between square brackets is not checked to be an IP
    literal.  The model is the function on URLs of printable characters
    whose host holds no square bracket; the theorems below either assume
    such a URL or hold for whatever [urlparse] answers. *)

Record ParseResult : Type := mkParseResult {
  pr_scheme : string;
  pr_netloc : string;
  pr_path : string;
  pr_params : string;
  pr_query : string;
  pr_fragment : string
}.

Definition scheme_char (c : ascii) : bool :=
  Str.is_alpha c || Str.is_digit c || Str.mem c "+-.".

Definition uses_params : list string :=
  [""; "ftp"; "hdl"; "prospero"; "http"; "imap"; "https"; "shttp"; "rtsp";
   "rtspu"; "sip"; "sips"; "mms"; "sftp"; "tel"].

Definition split_scheme (url : string) : string * string :=
  match Str.span (Ascii.eqb ":") url with
  | (String a pre, String _ rest) =>
      if Str.is_alpha a && Str.forallb scheme_char (String a pre)
      then (Str.lower (String a pre), rest)
      else (EmptyString, url)
  | _ => (EmptyString, url)
  end.

Definition split_netloc (url : string) : string * string :=
  if Str.startswith "//" url
  then Str.span (fun c => Str.mem c "/?#") (Str.drop 2 url)
  else (EmptyString, url).

(** [url.split(c, 1)] guarded by [c in url], as [urlsplit] cuts fragment and
    query. *)
Definition cut_at (c : ascii) (url : string) : string * string :=
  match Str.span (Ascii.eqb c) url with
  | (h, String _ t) => (h, t)
  | (h, EmptyString) => (h, EmptyString)
  end.

Definition splitparams (url : string) : string * string :=
  match Str.rsplit1_at "/" url with
  | Some (h, t) =>
      match Str.span (Ascii.eqb ";") t with
      | (seg, String _ params) => (h ++ "/" ++ seg, params)
      | (_, EmptyString) => (url, EmptyString)
      end
  | None => cut_at ";" url
  end.

Definition urlparse (url : string) : result ParseResult :=
  let '(scheme, url) := split_scheme url in
  let '(netloc, url) := split_netloc url in
  if xorb (Str.mem "[" netloc) (Str.mem "]" netloc)
  then Raise (ValueError InvalidIPv6URL)
  else
    let '(url, fragment) := cut_at "#" url in
    let '(url, query) := cut_at "?" url in
    let '(url, params) :=
      if existsb (String.eqb scheme) uses_params && Str.mem ";" url
      then splitparams url
      else (url, EmptyString) in
    Ok (mkParseResult scheme netloc url params query fragment).

(** ** Records of the module *)

(** The value stored in [URLParts.pull_request_number]: the field is
    annotated [int], and Python stores whatever the caller passes. *)
Inductive PyVal : Type :=
| PyInt (z : Z)
| PyStr (s : string).

Record URLParts : Type := mkURLParts {
  url_type : URLType;
  up_org : string;
  up_repo_name : string;
  pull_request_number : PyVal
}.

Record RemoteParts : Type := mkRemoteParts {
  scheme : RemoteScheme;
  netloc : string;
  org : string;
  name : string
}.

Record GitConfigRemote : Type := mkGitConfigRemote {
  gcr_name : string;
  parts : RemoteParts;
  fetch : string
}.

(** ** URL classifier *)

Definition RemoteScheme_value (s : RemoteScheme) : string :=
  match s with
  | Git => "git"
  | Http => "http"
  | Https => "https"
  end.

(** [RemoteScheme.__members__[[sc for sc, sv in ... if sv.value == v][0]]],
    with the [IndexError] turned into [NotImplementedError(v)]. *)
Definition scheme_of_value (v : string) : result RemoteScheme :=
  match filter (fun sc => String.eqb (RemoteScheme_value sc) v) [Git; Http; Https] with
  | sc :: _ => Ok sc
  | [] => Raise (NotImplementedError (ArgStr v))
  end.

Open Scope result_scope.

Definition ParseURLToRemoteParts (url : string) : result RemoteParts :=
  if Str.startswith "git@" url then
    after_at <- getitem (Str.split "@" (Some 1) url) 1 ;;
    netloc <- getitem (Str.rsplit1 ":" after_at) 0 ;;
    path <- getitem (Str.rsplit1 ":" url) 1 ;;
    let path := if Str.endswith ".git" path then Str.drop_last 4 path else path in
    '(org, repo_name) <- unpack2 (Str.split "/" (Some 1) path) ;;
    Ok (mkRemoteParts Git netloc org repo_name)
  else if Str.startswith "http" url && Str.endswith ".git" url then
    url_parts <- urlparse url ;;
    scheme <- scheme_of_value (pr_scheme url_parts) ;;
    stem <- getitem (Str.rsplit1 ".git" (pr_path url_parts)) 0 ;;
    '(org, repo_name) <- unpack2 (Str.split "/" None (Str.strip "/" stem)) ;;
    Ok (mkRemoteParts scheme (pr_netloc url_parts) org repo_name)
  else if Str.startswith "http" url && Str.contains "pull/" url then
    url_parts <- urlparse url ;;
    scheme <- scheme_of_value (pr_scheme url_parts) ;;
    '(org, repo_name, _) <-
      unpack3 (Str.split "/" (Some 2) (Str.strip "/" (pr_path url_parts))) ;;
    Ok (mkRemoteParts scheme (pr_netloc url_parts) org repo_name)
  else
    Raise (NotImplementedError (ArgStr url)).

Definition is_match (self : GitConfigRemote) (url : string) : result bool :=
  other_remote_parts <- ParseURLToRemoteParts url ;;
  Ok (String.eqb (netloc other_remote_parts) (netloc (parts self)) &&
      String.eqb (org other_remote_parts) (org (parts self)) &&
      String.eqb (name other_remote_parts) (name (parts self))).

(** The message of the f-string [f'Unable to parse pr_num[{pr_num}]']. *)
Definition unable_to_parse (pr_num : string) : string :=
  "Unable to parse pr_num[" ++ pr_num ++ "]".

Definition select_url_type (url : string) (repo_type : RepoType) : result URLParts :=
  match repo_type with
  | GithubGIT | GithubHTTPS =>
      url_parts <- urlparse url ;;
      '(org, repo_name, rest) <-
        match unpack3 (Str.split "/" (Some 2) (Str.strip "/" (pr_path url_parts))) with
        | Ok (org, repo_name, rest) => Ok (org, repo_name, Some rest)
        | Raise (ValueError _) =>
            '(org, repo_name) <-
              unpack2 (Str.split "/" (Some 2) (Str.strip "/" (pr_path url_parts))) ;;
            Ok (org, repo_name, None)
        | Raise e => Raise e
        end ;;
      match rest with
      | None => Ok (mkURLParts GithubRepoURL org repo_name (PyInt 0))
      | Some rest =>
          if Str.startswith "pull" rest then
            pr_num <- getitem (Str.split "/" (Some 1) (Str.strip "pull/" rest)) 0 ;;
            if Str.contains "/" pr_num
            then Raise (NotImplementedError (ArgStr (unable_to_parse pr_num)))
            else Ok (mkURLParts GithubPullRequest org repo_name (PyStr pr_num))
          else Raise (NotImplementedError ArgNone)
      end
  | Local => Raise (NotImplementedError (ArgRepoType repo_type))
  end.

(** ** The environment of a session

    The module reaches the file system through [os.path.exists], allocates a
    name with [tempfile.NamedTemporaryFile] and drives git through GitPython.
    [World] holds what these answer: which paths exist, which exception (if
    any) a git call raises and how many entries [index.diff] returns, both
    as functions of the calls made so far, the directory and the candidate
    names of [tempfile], and the log of the git calls made. *)

Record World : Type := mkWorld {
  path_exists : string -> bool;
  git_raises : list GitCall -> GitCall -> option exn;
  diff_entries : list GitCall -> string -> nat;
  tempdir : string;
  tmp_names : list string;
  git_log : list GitCall
}.

Definition M (A : Type) : Type := World -> result A * World.

Definition ret {A : Type} (a : A) : M A := fun w => (Ok a, w).

Definition raise {A : Type} (e : exn) : M A := fun w => (Raise e, w).

Definition bind {A B : Type} (m : M A) (k : A -> M B) : M B :=
  fun w =>
    match m w with
    | (Ok a, w') => k a w'
    | (Raise e, w') => (Raise e, w')
    end.

Declare Scope world_scope.
Delimit Scope world_scope with world.
Notation "x <-- m ;; k" := (bind m (fun x => k))
  (at level 61, m at next level, right associativity) : world_scope.
Notation "m ;;; k" := (bind m (fun _ => k))
  (at level 61, right associativity) : world_scope.

Open Scope world_scope.

Definition set_log (l : list GitCall) (w : World) : World :=
  mkWorld (path_exists w) (git_raises w) (diff_entries w) (tempdir w) (tmp_names w) l.

Definition set_tmp_names (l : list string) (w : World) : World :=
  mkWorld (path_exists w) (git_raises w) (diff_entries w) (tempdir w) l (git_log w).

(** A call on the git collaborator: logged, then it returns or raises. *)
Definition git (c : GitCall) : M unit :=
  fun w =>
    let w' := set_log (git_log w ++ [c]) w in
    match git_raises w (git_log w) c with
    | Some e => (Raise e, w')
    | None => (Ok tt, w')
    end.

(** [len(repo.index.diff(ref))]. *)
Definition len_index_diff (ref : string) : M nat :=
  fun w =>
    match git (index_diff ref) w with
    | (Ok _, w') => (Ok (diff_entries w (git_log w) ref), w')
    | (Raise e, w') => (Raise e, w')
    end.

(** [for x in l: body(x)]. *)
Fixpoint for_each {A : Type} (l : list A) (body : A -> M unit) : M unit :=
  match l with
  | [] => ret tt
  | x :: rest => body x ;;; for_each rest body
  end.

(** [os.path.join(dir, file)] for a relative [file]. *)
Definition os_path_join (dir file : string) : string :=
  if String.eqb dir "" || Str.endswith "/" dir then dir ++ file else dir ++ "/" ++ file.

(** [tempfile.NamedTemporaryFile().name]: the first candidate name whose
    path does not exist yet; the file is created under that name and removed
    again when the unreferenced file object is dropped, so only the name is
    left.  Without a free candidate the call raises [FileExistsError]. *)
Fixpoint mkstemp_inner (exists_ : string -> bool) (dir : string) (names : list string)
  : result string * list string :=
  match names with
  | [] => (Raise FileExistsError, [])
  | n :: rest =>
      let file := os_path_join dir ("tmp" ++ n) in
      if exists_ file then mkstemp_inner exists_ dir rest else (Ok file, rest)
  end.

Definition NamedTemporaryFile_name : M string :=
  fun w =>
    let '(r, rest) := mkstemp_inner (path_exists w) (tempdir w) (tmp_names w) in
    (r, set_tmp_names rest w).

(** ** Repository locator *)

Definition select_repo_type (repo_path : string) : M (string * RepoType) :=
  fun w =>
    if path_exists w repo_path then
      match git (Repo_open repo_path) w with
      | (Raise InvalidGitRepositoryError, w') =>
          (Raise (InvalidRepoPath ("RepoPath[" ++ repo_path ++ "] is not a Repository")), w')
      | (Raise e, w') => (Raise e, w')
      | (Ok _, w') => (Ok (repo_path, Local), w')
      end
    else if Str.startswith "git@github.com" repo_path then
      (tmp <-- NamedTemporaryFile_name ;; ret (tmp, GithubGIT)) w
    else if Str.startswith "https://github.com" repo_path then
      (tmp <-- NamedTemporaryFile_name ;; ret (tmp, GithubHTTPS)) w
    else
      (Raise (InvalidRepoPath ("RepoPath[" ++ repo_path ++ "] does not exist")), w).

(** ** Repository session *)

Record Repo : Type := mkRepo {
  repo_path : string;
  repo_url : option string;
  repo_type : RepoType;
  _altered_files : list string
}.

Definition commit_message : string :=
  "Added by CircleCI Integration from https://github.com/adrn/nbcollection".

Section Session.

(** [DEFAULT_REMOTE] and [DEFAULT_BRANCH] are imported from
    [nbcollection.ci.constants]; the session takes them as given. *)
Variables DEFAULT_REMOTE DEFAULT_BRANCH : string.

Definition _sync_repo_locally (self : Repo) : M unit :=
  match repo_type self with
  | Local => ret tt
  | GithubGIT => git (Repo_clone_from (repo_url self) (repo_path self))
  | GithubHTTPS => git (Repo_clone_from (repo_url self) (repo_path self))
  end.

Definition _sync_repo_remote (self : Repo) : M unit :=
  match repo_type self with
  | Local => ret tt
  | GithubGIT =>
      git (Repo_open (repo_path self)) ;;;
      for_each (_altered_files self) (fun filepath => git (git_add filepath)) ;;;
      n <-- len_index_diff "origin/master" ;;
      if negb (n =? 0)%nat || (0 <? List.length (_altered_files self))%nat then
        git (index_commit commit_message) ;;;
        git (repo_remote "origin") ;;;
        git remote_push
      else ret tt
  | GithubHTTPS =>
      git (Repo_open (repo_path self)) ;;;
      for_each (_altered_files self) (fun filepath => git (git_add filepath)) ;;;
      n <-- len_index_diff (DEFAULT_REMOTE ++ "/" ++ DEFAULT_BRANCH) ;;
      if negb (n =? 0)%nat then
        git (index_commit commit_message) ;;;
        git (repo_remote "origin") ;;;
        git remote_push
      else ret tt
  end.

(** No method assigns an attribute once [__init__] has run, so a method
    takes its receiver as a value. *)
Definition __init__ (repo_path : string) : M Repo :=
  located <-- select_repo_type repo_path ;;
  let '(path, type_) := located in
  ret (mkRepo path
              (match type_ with Local => None | _ => Some repo_path end)
              type_
              []).

Definition __enter__ (self : Repo) : M Repo :=
  _sync_repo_locally self ;;; ret self.

Definition __exit__ (self : Repo) : M unit :=
  _sync_repo_remote self.

Definition install (self : Repo) : M unit := raise (NotImplementedError ArgNone).

Definition uninstall (self : Repo) : M unit := raise (NotImplementedError ArgNone).

End Session.

(** Modelled from the spec: the constants module [nbcollection.ci.constants]
    is not part of the sources at hand; the specification gives the default
    remote name as [origin] and the default branch name as [main]. *)
Definition DEFAULT_REMOTE : string := "origin".
Definition DEFAULT_BRANCH : string := "main".

(** The calls of a log that commit or push. *)
Definition is_commit (c : GitCall) : bool :=
  match c with index_commit _ => true | _ => false end.

Definition is_push (c : GitCall) : bool :=
  match c with remote_push => true | _ => false end.

Definition commits (l : list GitCall) : nat := List.length (filter is_commit l).
Definition pushes (l : list GitCall) : nat := List.length (filter is_push l).

(** A world in which every git call returns. *)
Definition quiet_world (exists_ : string -> bool) (diff : list GitCall -> string -> nat)
  : World :=
  mkWorld exists_ (fun _ _ => None) diff "/tmp" ["k3x9_ab1"; "q0z7yy2m"] [].

(** A session on a clone of [org/repo] with the given type and recorded
    files. *)
Definition session_of (type_ : RepoType) (altered : list string) : Repo :=
  mkRepo "/tmp/tmpk3x9_ab1"
         (match type_ with
          | Local => None
          | GithubGIT => Some "git@github.com:org/repo.git"
          | GithubHTTPS => Some "https://github.com/org/repo"
          end)
         type_ altered.

(** The index equals every upstream branch. *)
Definition no_diff : list GitCall -> string -> nat := fun _ _ => 0.

(** The index equals [origin/master] and differs from every other ref by
    one entry. *)
Definition diff_but_master : list GitCall -> string -> nat :=
  fun _ ref => if String.eqb ref "origin/master" then 0 else 1.

(** No git call of the world raises. *)
Definition never_raises (w : World) : Prop :=
  forall l c, git_raises w l c = None.

(** A world whose existing paths are no git repositories. *)
Definition broken_world : World :=
  mkWorld (fun _ => true) (fun _ _ => Some InvalidGitRepositoryError) no_diff
          "/tmp" ["k3x9_ab1"] [].

(** The characters of a host, organization or repository name: letters,
    digits, hyphen, underscore and dot. *)
Definition name_char (c : ascii) : bool :=
  Str.is_alpha c || Str.is_digit c || Str.mem c "-_.".

(** A name is a non-empty string of such characters. *)
Definition valid_name (s : string) : bool :=
  negb (String.eqb s "") && Str.forallb name_char s.

(** The SSH shorthand and the clone URL of a repository. *)
Definition ssh_locator (host org_ repo : string) : string :=
  "git@" ++ host ++ ":" ++ org_ ++ "/" ++ repo ++ ".git".

Definition clone_url (scheme_ host org_ repo : string) : string :=
  scheme_ ++ "://" ++ host ++ "/" ++ org_ ++ "/" ++ repo ++ ".git".


(** The browse URL of a repository and the URL of one of its pull
    requests. *)
Definition browse_url (scheme_ host org_ repo : string) : string :=
  scheme_ ++ "://" ++ host ++ "/" ++ org_ ++ "/" ++ repo.

Definition pull_url (scheme_ host org_ repo number : string) : string :=
  scheme_ ++ "://" ++ host ++ "/" ++ org_ ++ "/" ++ repo ++ "/pull/" ++ number.

(** A pull-request id: a non-empty string of digits. *)
Definition is_number (s : string) : bool :=
  negb (String.eqb s "") && Str.forallb Str.is_digit s.

(** The characters of a path of names. *)
Definition path_char (c : ascii) : bool := name_char c || Ascii.eqb c "/".

Fixpoint last_char (s : string) : option ascii :=
  match s with
  | EmptyString => None
  | String a EmptyString => Some a
  | String _ s' => last_char s'
  end.

(** [maxsplit] leaves room for one more cut after [l] was produced. *)
Definition within_maxsplit (k : option nat) (l : list string) : Prop :=
  match k with
  | None => True
  | Some n => List.length l <= n
  end.

Definition no_sep (sep : ascii) (s : string) : Prop :=
  Str.contains (String sep EmptyString) s = false.

(** ** The command line entry point, [nbcollection/ci/__main__.py] *)

Module Main.

(** The command modules imported from [nbcollection.ci.commands]. *)
Inductive Command : Type :=
| install
| uninstall
| venv
| replicate.

(** The dictionary [commands]. *)
Definition commands : list (string * Command) :=
  [("install", install); ("uninstall", uninstall); ("venv", venv);
   ("replicate", replicate)].

(** The names bound at module level. *)
Definition module_globals : list string :=
  ["sys"; "argparse"; "install"; "uninstall"; "venv"; "replicate"; "commands";
   "DESCRIPTION"; "parse_options"; "main"].

Definition unrecognized (command : string) : string :=
  "Unrecognized command: " ++ command ++ String (ascii_of_nat 10)
    (" See the help above for usage information").

Section Entry.

(** What the collaborators raise: [argparse] when it rejects the argument
    vector, a command when its [convert] fails. *)
Variable E : Type.

Inductive exc : Type :=
| NameError (name : string)
| ValueError (msg : string)
| External (e : E).

Inductive outcome (A : Type) : Type :=
| Returns (a : A)
| Raises (e : exc).

Arguments Returns {A} a.
Arguments Raises {A} e.

(** [sys.argv]; [ArgumentParser.parse_args] of the parser with the one
    positional argument [command], giving [parsed.command]; and the
    [convert] of each command module, which are not part of the sources at
    hand. *)
Variable sys_argv : list string.
Variable parse_args : list string -> outcome string.
Variable convert : Command -> option (list string) -> outcome unit.

(** [l[i:j]]. *)
Definition slice (i j : nat) (l : list string) : list string :=
  firstn (j - i) (skipn i l).

(** [args or sys.argv]: [None] and the empty list are false. *)
Definition or_sys_argv (args : option (list string)) : list string :=
  match args with
  | None => sys_argv
  | Some [] => sys_argv
  | Some l => l
  end.

Definition parse_options (args : option (list string)) : outcome string :=
  let args := or_sys_argv args in
  parse_args (slice 1 2 args).

Fixpoint lookup (key : string) (d : list (string * Command)) : option Command :=
  match d with
  | [] => None
  | (k, v) :: rest => if String.eqb key k then Some v else lookup key rest
  end.

(** Evaluating a name in a function: a local, else a module global, else
    [NameError]. *)
Definition load_name (locals : list string) (name : string) : outcome unit :=
  if existsb (String.eqb name) (locals ++ module_globals)
  then Returns tt
  else Raises (NameError name).

Definition main (args : option (list string)) : outcome unit :=
  match parse_options args with
  | Raises e => Raises e
  | Returns command =>
      match lookup command commands with
      | None =>
          match load_name ["args"; "parsed"] "parser" with
          | Raises e => Raises e
          | Returns _ => Raises (ValueError (unrecognized command))
          end
      | Some module => convert module args
      end
  end.

End Entry.

Arguments Returns {E A} a.
Arguments Raises {E A} e.
Arguments NameError {E} name.
Arguments ValueError {E} msg.
Arguments External {E} e.

End Main.

(** The locators of one repository that the parser accepts. *)
Definition locators (host org_ repo number : string) : list string :=
  [ssh_locator host org_ repo;
   clone_url "https" host org_ repo; clone_url "http" host org_ repo;
   pull_url "https" host org_ repo number; pull_url "http" host org_ repo number].

(** The calls a release makes when none raises and it commits. *)
Definition release_calls (ref : string) (self : Repo) : list GitCall :=
  (Repo_open (repo_path self) :: map git_add (_altered_files self)
   ++ [index_diff ref; index_commit commit_message; repo_remote "origin"; remote_push])%list.

(** The ref a release takes the diff against. *)
Definition release_ref (remote branch : string) (type_ : RepoType) : string :=
  match type_ with
  | GithubHTTPS => remote ++ "/" ++ branch
  | _ => "origin/master"
  end.

(** The statements of a [with Repo(repo_path)] block whose body does
    nothing: construction, entry, release. *)
Definition empty_scope (remote branch repo_path : string) : M unit :=
  self <-- __init__ repo_path ;;
  self' <-- __enter__ self ;;
  __exit__ remote branch self'.





(** * Properties *)

(** ** What the helpers can raise *)

Lemma urlparse_raises (url : string) (e : exn) :
  urlparse url = Raise e -> e = ValueError InvalidIPv6URL.
Proof.
  unfold urlparse.
  destruct (split_scheme url) as [sch u1].
  destruct (split_netloc u1) as [nl u2].
  destruct (xorb _ _).
  - intros H; injection H as <-; reflexivity.
  - destruct (cut_at "#" u2) as [u3 fr].
    destruct (cut_at "?" u3) as [u4 q].
    match goal with
    | |- context [if ?b then splitparams u4 else _] => destruct b
    end; [destruct (splitparams u4)|]; discriminate.
Qed.

Lemma unpack2_raises (l : list string) (e : exn) :
  unpack2 l = Raise e -> exists v, e = ValueError v.
Proof.
  destruct l as [|a [|b [|c l]]]; simpl; intros H;
    try discriminate; injection H as <-; eexists; reflexivity.
Qed.

Lemma unpack3_raises (l : list string) (e : exn) :
  unpack3 l = Raise e -> exists v, e = ValueError v.
Proof.
  destruct l as [|a [|b [|c [|d l]]]]; simpl; intros H;
    try discriminate; injection H as <-; eexists; reflexivity.
Qed.

Lemma getitem_raises (l : list string) (i : nat) (e : exn) :
  getitem l i = Raise e -> e = IndexError.
Proof.
  unfold getitem; destruct (nth_error l i); intros H;
    [discriminate | injection H as <-; reflexivity].
Qed.

(** ** Facts on the [str] methods *)

Lemma ascii_eqb_sym (a b : ascii) : Ascii.eqb a b = Ascii.eqb b a.
Proof.
  destruct (Ascii.eqb_spec a b) as [->|Hne].
  - symmetry; apply Ascii.eqb_refl.
  - symmetry; apply Ascii.eqb_neq; congruence.
Qed.

Lemma startswith_char (c a : ascii) (s : string) :
  Str.startswith (String c EmptyString) (String a s) = Ascii.eqb c a.
Proof. simpl. apply andb_true_r. Qed.

Lemma contains_char_cons (c a : ascii) (s : string) :
  Str.contains (String c EmptyString) (String a s) =
  Ascii.eqb c a || Str.contains (String c EmptyString) s.
Proof.
  change (Str.contains (String c EmptyString) (String a s))
    with (Str.startswith (String c EmptyString) (String a s)
          || Str.contains (String c EmptyString) s).
  now rewrite startswith_char.
Qed.

Lemma contains_char_nil (c : ascii) :
  Str.contains (String c EmptyString) EmptyString = false.
Proof. reflexivity. Qed.

(** Without the separator in it, a string splits into itself. *)
Lemma split_absent (sep : ascii) (k : option nat) (s : string) :
  Str.contains (String sep EmptyString) s = false ->
  Str.split sep k s = [s].
Proof.
  induction s as [|a s IH]; intros H.
  - reflexivity.
  - rewrite contains_char_cons in H.
    apply orb_false_iff in H as [Ha Hs].
    simpl. rewrite (ascii_eqb_sym a sep), Ha. simpl.
    now rewrite (IH Hs).
Qed.

(** The first piece of a split holds no separator. *)
Lemma split_head_clean (sep : ascii) (k : option nat) (s h : string) :
  k <> Some 0 ->
  getitem (Str.split sep k s) 0 = Ok h ->
  Str.contains (String sep EmptyString) h = false.
Proof.
  intros Hk; revert h; induction s as [|a s IH]; intros h.
  - simpl. intros H; injection H as <-. reflexivity.
  - simpl.
    replace (match k with Some 0 => false | _ => true end) with true
      by (destruct k as [[|n]|]; congruence).
    rewrite andb_true_r.
    destruct (Ascii.eqb a sep) eqn:Ha.
    + simpl. intros H; injection H as <-. reflexivity.
    + destruct (Str.split sep k s) as [|h' t] eqn:Hs;
        simpl; intros H; injection H as <-;
        rewrite contains_char_cons, (ascii_eqb_sym sep a), Ha; simpl.
      * reflexivity.
      * apply IH. reflexivity.
Qed.

(** ** The URL classifier on pull-request URLs *)

(** C2. On ["https://github.com/spacetelescope/dat_pyinthesky/pull/125"]
    with [GithubHTTPS], [select_url_type] returns the [GithubPullRequest]
    parts of [spacetelescope/dat_pyinthesky], and the fourth component is the
    text ["125"] that [strip] and [split] left, not the number 125 that the
    [int] annotation of [pull_request_number] announces. *)
Theorem select_url_type_pull_request_125 :
  select_url_type "https://github.com/spacetelescope/dat_pyinthesky/pull/125" GithubHTTPS
  = Ok (mkURLParts GithubPullRequest "spacetelescope" "dat_pyinthesky" (PyStr "125"))
  /\ select_url_type "https://github.com/spacetelescope/dat_pyinthesky/pull/125" GithubHTTPS
     <> Ok (mkURLParts GithubPullRequest "spacetelescope" "dat_pyinthesky" (PyInt 125)).
Proof.
  split.
  - reflexivity.
  - intros H. vm_compute in H. discriminate H.
Qed.

(** The branch without a third segment stores the number 0. *)
Example select_url_type_repo_url :
  select_url_type "https://github.com/spacetelescope/dat_pyinthesky" GithubHTTPS
  = Ok (mkURLParts GithubRepoURL "spacetelescope" "dat_pyinthesky" (PyInt 0)).
Proof. reflexivity. Qed.

(** C3. The guard [if '/' in pr_num] tests the piece that [split('/', 1)[0]]
    has just cut at the first slash, so it never holds: [select_url_type]
    raises [NotImplementedError] with a message on no input at all, and on
    ["https://github.com/org/repo/pull/125/files"], whose remainder after the
    id still holds a slash, it returns pull request ["125"]. *)
Theorem select_url_type_never_ambiguous :
  (forall url repo_type msg,
      select_url_type url repo_type <> Raise (NotImplementedError (ArgStr msg)))
  /\ select_url_type "https://github.com/org/repo/pull/125/files" GithubHTTPS
     = Ok (mkURLParts GithubPullRequest "org" "repo" (PyStr "125")).
Proof.
  split; [|reflexivity].
  intros url repo_type msg H.
  assert (Hbody :
    forall r : result URLParts,
      r = (url_parts <- urlparse url ;;
           ' (org, repo_name, rest) <-
             match unpack3 (Str.split "/" (Some 2) (Str.strip "/" (pr_path url_parts))) with
             | Ok (org, repo_name, rest) => Ok (org, repo_name, Some rest)
             | Raise (ValueError _) =>
                 ' (org, repo_name) <-
                   unpack2 (Str.split "/" (Some 2) (Str.strip "/" (pr_path url_parts))) ;;
                 Ok (org, repo_name, None)
             | Raise e => Raise e
             end ;;
           match rest with
           | None => Ok (mkURLParts GithubRepoURL org repo_name (PyInt 0))
           | Some rest =>
               if Str.startswith "pull" rest then
                 pr_num <- getitem (Str.split "/" (Some 1) (Str.strip "pull/" rest)) 0 ;;
                 if Str.contains "/" pr_num
                 then Raise (NotImplementedError (ArgStr (unable_to_parse pr_num)))
                 else Ok (mkURLParts GithubPullRequest org repo_name (PyStr pr_num))
               else Raise (NotImplementedError ArgNone)
           end) ->
      r <> Raise (NotImplementedError (ArgStr msg))).
  { intros r -> Hr. unfold rbind in Hr.
    destruct (urlparse url) as [url_parts|e] eqn:Hu.
    2:{ apply urlparse_raises in Hu. congruence. }
    destruct (unpack3 _) as [[[o n] rest]|e] eqn:H3.
    - destruct (Str.startswith "pull" rest); [|discriminate Hr].
      destruct (getitem _ 0) as [pr_num|e] eqn:Hg.
      + rewrite (split_head_clean "/" (Some 1) (Str.strip "pull/" rest) pr_num) in Hr;
          [discriminate Hr | discriminate | exact Hg].
      + apply getitem_raises in Hg. congruence.
    - destruct (unpack3_raises _ _ H3) as [v ->].
      destruct (unpack2 _) as [[o n]|e] eqn:H2.
      + discriminate Hr.
      + destruct (unpack2_raises _ _ H2) as [v' ->]. discriminate Hr. }
  destruct repo_type; cbn [select_url_type] in H.
  - discriminate H.
  - exact (Hbody _ eq_refl H).
  - exact (Hbody _ eq_refl H).
Qed.

(** C10. When the path of the URL, stripped of its slashes, holds no slash,
    [select_url_type] with a GitHub repository type fails: the three-name
    unpacking raises [ValueError], the fallback unpacks the same one-element
    list into two names and its [ValueError] escapes; that is none of the
    [NotImplementedError]s the classifier raises on purpose. *)
Theorem select_url_type_single_segment (url : string) (repo_type : RepoType)
    (url_parts : ParseResult) :
  repo_type <> Local ->
  urlparse url = Ok url_parts ->
  Str.contains "/" (Str.strip "/" (pr_path url_parts)) = false ->
  select_url_type url repo_type = Raise (ValueError (NotEnoughValues 2 1)).
Proof.
  intros Ht Hu Hp.
  assert (Hs : Str.split "/" (Some 2) (Str.strip "/" (pr_path url_parts))
               = [Str.strip "/" (pr_path url_parts)])
    by (apply split_absent; exact Hp).
  destruct repo_type; [congruence| |];
    unfold select_url_type; rewrite Hu; cbn [rbind]; rewrite Hs; reflexivity.
Qed.

Lemma select_url_type_single_segment_witness :
  select_url_type "https://github.com/orgonly" GithubHTTPS
  = Raise (ValueError (NotEnoughValues 2 1)).
Proof.
  apply (select_url_type_single_segment
           "https://github.com/orgonly" GithubHTTPS
           (mkParseResult "https" "github.com" "/orgonly" "" "" "")).
  - intros H; discriminate H.
  - reflexivity.
  - reflexivity.
Defined.

(** ** The session against the git collaborator *)

Lemma git_quiet (c : GitCall) (w : World) :
  never_raises w -> git c w = (Ok tt, set_log (git_log w ++ [c]) w).
Proof. intros Hq. unfold git. now rewrite Hq. Qed.

Lemma never_raises_set_log (l : list GitCall) (w : World) :
  never_raises w -> never_raises (set_log l w).
Proof. intros Hq l' c. exact (Hq l' c). Qed.

Lemma set_log_set_log (l1 l2 : list GitCall) (w : World) :
  set_log l2 (set_log l1 w) = set_log l2 w.
Proof. reflexivity. Qed.

Lemma for_each_add_quiet (files : list string) (w : World) :
  never_raises w ->
  for_each files (fun filepath => git (git_add filepath)) w
  = (Ok tt, set_log (git_log w ++ map git_add files) w).
Proof.
  revert w; induction files as [|f files IH]; intros w Hq.
  - simpl. unfold ret. rewrite app_nil_r. now destruct w.
  - simpl. unfold bind. rewrite (git_quiet _ _ Hq).
    rewrite IH by now apply never_raises_set_log.
    rewrite set_log_set_log. simpl. now rewrite <- app_assoc.
Qed.

(** Staging: on release a remote session adds every recorded file, in
    order, right after opening the repository. *)
Lemma release_stages_altered_files (remote branch : string) (self : Repo) (w : World) :
  never_raises w ->
  repo_type self <> Local ->
  exists rest,
    git_log (snd (_sync_repo_remote remote branch self w))
    = (git_log w ++ Repo_open (repo_path self) :: map git_add (_altered_files self) ++ rest)%list.
Proof.
  intros Hq Ht.
  assert (Hq1 := never_raises_set_log (git_log w ++ [Repo_open (repo_path self)]) w Hq).
  unfold _sync_repo_remote.
  destruct (repo_type self); [congruence| |];
    unfold bind; rewrite (git_quiet _ _ Hq);
    rewrite (for_each_add_quiet _ _ Hq1);
    unfold len_index_diff; rewrite git_quiet by (now apply never_raises_set_log);
    match goal with |- context [if ?b then _ else _] => destruct b end;
    repeat (rewrite git_quiet by (repeat apply never_raises_set_log; exact Hq));
    unfold ret; simpl; rewrite <- !app_assoc; simpl; eexists;
    repeat f_equal; rewrite <- ?app_assoc; reflexivity.
Qed.

(** The three calls of a commit-and-push. *)
Lemma commit_and_push_quiet (w : World) :
  never_raises w ->
  (git (index_commit commit_message) ;;;
   git (repo_remote "origin") ;;;
   git remote_push) w
  = (Ok tt,
     set_log (git_log w ++
              [index_commit commit_message; repo_remote "origin"; remote_push]) w).
Proof.
  intros Hq. unfold bind.
  rewrite (git_quiet _ _ Hq).
  rewrite git_quiet by (now apply never_raises_set_log).
  rewrite git_quiet by (now repeat apply never_raises_set_log).
  simpl. rewrite <- !app_assoc. reflexivity.
Qed.

(** Release of a [GithubGIT] session: the diff is taken against
    [origin/master], and the session commits and pushes when that diff has an
    entry or a file was recorded. *)
Lemma release_GithubGIT (remote branch : string) (self : Repo) (w : World) :
  never_raises w ->
  repo_type self = GithubGIT ->
  let staged :=
    (git_log w ++ Repo_open (repo_path self) :: map git_add (_altered_files self))%list in
  _sync_repo_remote remote branch self w
  = (Ok tt,
     set_log
       (staged ++ index_diff "origin/master" ::
          (if negb (diff_entries w staged "origin/master" =? 0)%nat
              || (0 <? List.length (_altered_files self))%nat
           then [index_commit commit_message; repo_remote "origin"; remote_push]
           else []))
       w).
Proof.
  intros Hq Ht staged.
  assert (Hq1 := never_raises_set_log (git_log w ++ [Repo_open (repo_path self)]) w Hq).
  unfold _sync_repo_remote. rewrite Ht.
  unfold bind at 1. rewrite (git_quiet _ _ Hq).
  unfold bind at 1. rewrite (for_each_add_quiet _ _ Hq1).
  unfold bind at 1. unfold len_index_diff.
  rewrite git_quiet by (now apply never_raises_set_log).
  cbn [set_log git_log diff_entries].
  replace ((git_log w ++ [Repo_open (repo_path self)]) ++
           map git_add (_altered_files self))%list with staged
    by (unfold staged; now rewrite <- app_assoc).
  destruct (negb _ || _).
  - rewrite commit_and_push_quiet by (now apply never_raises_set_log).
    cbn [set_log git_log]. now rewrite <- app_assoc.
  - reflexivity.
Qed.

(** Release of a [GithubHTTPS] session: the diff is taken against
    [<remote>/<branch>], and the session commits and pushes when that diff
    has an entry; the recorded files play no part in the test. *)
Lemma release_GithubHTTPS (remote branch : string) (self : Repo) (w : World) :
  never_raises w ->
  repo_type self = GithubHTTPS ->
  let staged :=
    (git_log w ++ Repo_open (repo_path self) :: map git_add (_altered_files self))%list in
  _sync_repo_remote remote branch self w
  = (Ok tt,
     set_log
       (staged ++ index_diff (remote ++ "/" ++ branch) ::
          (if negb (diff_entries w staged (remote ++ "/" ++ branch) =? 0)%nat
           then [index_commit commit_message; repo_remote "origin"; remote_push]
           else []))
       w).
Proof.
  intros Hq Ht staged.
  assert (Hq1 := never_raises_set_log (git_log w ++ [Repo_open (repo_path self)]) w Hq).
  unfold _sync_repo_remote. rewrite Ht.
  unfold bind at 1. rewrite (git_quiet _ _ Hq).
  unfold bind at 1. rewrite (for_each_add_quiet _ _ Hq1).
  unfold bind at 1. unfold len_index_diff.
  rewrite git_quiet by (now apply never_raises_set_log).
  cbn [set_log git_log diff_entries].
  replace ((git_log w ++ [Repo_open (repo_path self)]) ++
           map git_add (_altered_files self))%list with staged
    by (unfold staged; now rewrite <- app_assoc).
  destruct (negb _).
  - rewrite commit_and_push_quiet by (now apply never_raises_set_log).
    cbn [set_log git_log]. now rewrite <- app_assoc.
  - reflexivity.
Qed.

(** C1. A [GithubHTTPS] session that recorded ["notebooks/foo.ipynb"] and
    whose index shows no difference from [origin/main] stages the file and
    then neither commits nor pushes, although [altered_files] is not empty;
    the [GithubGIT] session in the same state commits once and pushes once. *)
Theorem release_https_ignores_altered_files :
  let w := quiet_world (fun _ => true) no_diff in
  let https := _sync_repo_remote DEFAULT_REMOTE DEFAULT_BRANCH
                 (session_of GithubHTTPS ["notebooks/foo.ipynb"]) w in
  let ssh := _sync_repo_remote DEFAULT_REMOTE DEFAULT_BRANCH
               (session_of GithubGIT ["notebooks/foo.ipynb"]) w in
  fst https = Ok tt
  /\ git_log (snd https)
     = [Repo_open "/tmp/tmpk3x9_ab1"; git_add "notebooks/foo.ipynb";
        index_diff "origin/main"]
  /\ commits (git_log (snd https)) = 0
  /\ pushes (git_log (snd https)) = 0
  /\ git_log (snd ssh)
     = [Repo_open "/tmp/tmpk3x9_ab1"; git_add "notebooks/foo.ipynb";
        index_diff "origin/master";
        index_commit commit_message; repo_remote "origin"; remote_push]
  /\ commits (git_log (snd ssh)) = 1
  /\ pushes (git_log (snd ssh)) = 1.
Proof. cbv zeta. repeat split; reflexivity. Qed.

(** C4. The release of a [GithubGIT] session does not depend on the
    configured remote and branch: it takes the diff against the literal
    [origin/master].  With the defaults [origin] and [main] and an index that
    differs from [origin/main] but not from [origin/master], the
    [GithubGIT] session asks for the diff with [origin/master] and pushes
    nothing, where the [GithubHTTPS] session asks for [origin/main] and
    pushes. *)
Theorem release_ssh_diffs_against_master :
  (forall remote branch remote' branch' path url altered w,
      _sync_repo_remote remote branch (mkRepo path url GithubGIT altered) w
      = _sync_repo_remote remote' branch' (mkRepo path url GithubGIT altered) w)
  /\ (let w := quiet_world (fun _ => true) diff_but_master in
      git_log (snd (_sync_repo_remote DEFAULT_REMOTE DEFAULT_BRANCH
                      (session_of GithubGIT []) w))
      = [Repo_open "/tmp/tmpk3x9_ab1"; index_diff "origin/master"]
      /\ git_log (snd (_sync_repo_remote DEFAULT_REMOTE DEFAULT_BRANCH
                         (session_of GithubHTTPS []) w))
         = [Repo_open "/tmp/tmpk3x9_ab1"; index_diff "origin/main";
            index_commit commit_message; repo_remote "origin"; remote_push]).
Proof.
  split.
  - reflexivity.
  - cbv zeta. split; reflexivity.
Qed.

(** C8. For a session of type [Local], scope entry and scope release
    leave the world as it is, git log included: no clone, add, commit or
    push, whatever [altered_files] holds and whatever git would answer. *)
Theorem local_session_is_noop (remote branch : string) (self : Repo) (w : World) :
  repo_type self = Local ->
  __enter__ self w = (Ok self, w)
  /\ __exit__ remote branch self w = (Ok tt, w).
Proof.
  intros Ht.
  unfold __enter__, __exit__, _sync_repo_locally, _sync_repo_remote, bind, ret.
  rewrite Ht. split; reflexivity.
Qed.

Lemma local_session_is_noop_witness :
  let w := quiet_world (fun _ => true) diff_but_master in
  __enter__ (session_of Local ["notebooks/foo.ipynb"]) w
  = (Ok (session_of Local ["notebooks/foo.ipynb"]), w)
  /\ __exit__ DEFAULT_REMOTE DEFAULT_BRANCH (session_of Local ["notebooks/foo.ipynb"]) w
     = (Ok tt, w).
Proof.
  exact (local_session_is_noop DEFAULT_REMOTE DEFAULT_BRANCH
           (session_of Local ["notebooks/foo.ipynb"])
           (quiet_world (fun _ => true) diff_but_master) eq_refl).
Defined.

(** ** Construction of a session *)

(** C9. A session that [__init__] has built holds a url exactly when its
    type is not [Local]: the url is the input string for the two GitHub
    types and [None] for [Local]; [altered_files] starts empty; and scope
    entry hands back the session it was given, url and type included. *)
Theorem init_url_iff_not_local (repo_path : string) (w : World) (self : Repo) :
  fst (__init__ repo_path w) = Ok self ->
  (repo_url self <> None <-> repo_type self <> Local)
  /\ (repo_type self <> Local -> repo_url self = Some repo_path)
  /\ (repo_type self = Local -> repo_url self = None)
  /\ _altered_files self = []
  /\ (forall w1 w2 self', __enter__ self w1 = (Ok self', w2) -> self' = self).
Proof.
  unfold __init__, bind, ret.
  destruct (select_repo_type repo_path w) as [[[path type_]|e] w1]; simpl;
    intros H; [injection H as <-|discriminate H].
  repeat split; simpl; try (destruct type_; congruence).
  intros w1' w2 self'. unfold __enter__, bind, ret.
  destruct (_sync_repo_locally _ w1') as [[[]|e] w3]; congruence.
Qed.

Lemma init_url_iff_not_local_witness :
  let self := mkRepo "/tmp/tmpk3x9_ab1" (Some "https://github.com/org/repo")
                GithubHTTPS [] in
  (repo_url self <> None <-> repo_type self <> Local)
  /\ (repo_type self <> Local -> repo_url self = Some "https://github.com/org/repo")
  /\ (repo_type self = Local -> repo_url self = None)
  /\ _altered_files self = []
  /\ (forall w1 w2 self', __enter__ self w1 = (Ok self', w2) -> self' = self).
Proof.
  exact (init_url_iff_not_local "https://github.com/org/repo"
           (quiet_world (fun _ => false) no_diff)
           (mkRepo "/tmp/tmpk3x9_ab1" (Some "https://github.com/org/repo")
              GithubHTTPS [])
           eq_refl).
Defined.

(** A session on an existing checkout is local and has no url. *)
Example init_local :
  fst (__init__ "/home/ci/notebooks" (quiet_world (fun _ => true) no_diff))
  = Ok (mkRepo "/home/ci/notebooks" None Local []).
Proof. reflexivity. Qed.

(** ** The repository locator *)

Lemma os_path_join_absolute (dir file : string) :
  Str.startswith "/" dir = true ->
  Str.startswith "/" (os_path_join dir file) = true.
Proof.
  unfold os_path_join. destruct dir as [|a dir]; [discriminate|].
  intros H. destruct (_ || _); simpl in *; exact H.
Qed.

(** With a free candidate, [tempfile] hands out a path under its directory
    that does not exist. *)
Lemma mkstemp_inner_free (exists_ : string -> bool) (dir : string) (names : list string) :
  (exists n, In n names /\ exists_ (os_path_join dir ("tmp" ++ n)) = false) ->
  exists n rest,
    mkstemp_inner exists_ dir names = (Ok (os_path_join dir ("tmp" ++ n)), rest)
    /\ exists_ (os_path_join dir ("tmp" ++ n)) = false.
Proof.
  induction names as [|m names IH]; intros [n [Hin Hfree]].
  - destruct Hin.
  - cbn [mkstemp_inner].
    destruct (exists_ (os_path_join dir ("tmp" ++ m))) eqn:Hm.
    + apply IH. exists n. split; [|exact Hfree].
      destruct Hin as [->|Hin]; [congruence|exact Hin].
    + exists m, names. split; [reflexivity|exact Hm].
Qed.

Lemma absolute_not_locator (tmp repo_path : string) :
  Str.startswith "/" tmp = true ->
  Str.startswith "git@github.com" repo_path = true
  \/ Str.startswith "https://github.com" repo_path = true ->
  tmp <> repo_path.
Proof.
  intros Habs Hloc ->.
  destruct repo_path as [|a s]; [discriminate Habs|].
  rewrite startswith_char in Habs.
  apply Ascii.eqb_eq in Habs. subst a.
  destruct Hloc as [H|H]; discriminate H.
Qed.

(** C7. [select_repo_type] returns the path unchanged with type [Local] when
    it exists and opens as a git repository, and leaves the candidate names
    of [tempfile] untouched; fails with [InvalidRepoPath] when the existing
    path is not a repository; for a path that does not exist and starts with
    [git@github.com] (resp. [https://github.com]) returns a path that
    [tempfile] allocated, which does not exist and differs from the input,
    with type [GithubGIT] (resp. [GithubHTTPS]); and fails with
    [InvalidRepoPath] on every other input.  The temporary directory is
    absolute and one of its candidate names is free. *)
Theorem select_repo_type_cases (repo_path : string) (w : World) :
  (path_exists w repo_path = true ->
   git_raises w (git_log w) (Repo_open repo_path) = None ->
   fst (select_repo_type repo_path w) = Ok (repo_path, Local)
   /\ tmp_names (snd (select_repo_type repo_path w)) = tmp_names w)
  /\ (path_exists w repo_path = true ->
      git_raises w (git_log w) (Repo_open repo_path) = Some InvalidGitRepositoryError ->
      exists msg, fst (select_repo_type repo_path w) = Raise (InvalidRepoPath msg))
  /\ (path_exists w repo_path = false ->
      Str.startswith "/" (tempdir w) = true ->
      (exists n, In n (tmp_names w)
                 /\ path_exists w (os_path_join (tempdir w) ("tmp" ++ n)) = false) ->
      (Str.startswith "git@github.com" repo_path = true ->
       exists tmp,
         fst (select_repo_type repo_path w) = Ok (tmp, GithubGIT)
         /\ tmp <> repo_path /\ path_exists w tmp = false)
      /\ (Str.startswith "git@github.com" repo_path = false ->
          Str.startswith "https://github.com" repo_path = true ->
          exists tmp,
            fst (select_repo_type repo_path w) = Ok (tmp, GithubHTTPS)
            /\ tmp <> repo_path /\ path_exists w tmp = false))
  /\ (path_exists w repo_path = false ->
      Str.startswith "git@github.com" repo_path = false ->
      Str.startswith "https://github.com" repo_path = false ->
      exists msg, fst (select_repo_type repo_path w) = Raise (InvalidRepoPath msg)).
Proof.
  unfold select_repo_type. split; [|split; [|split]].
  - intros He Hr. rewrite He. unfold git. rewrite Hr. split; reflexivity.
  - intros He Hr. rewrite He. unfold git. rewrite Hr. eexists. reflexivity.
  - intros He Habs Hfree.
    destruct (mkstemp_inner_free _ _ _ Hfree) as [n [rest [Hmk Hnew]]].
    split; [intros Hssh | intros Hssh Hhttps];
      rewrite He, Hssh, ?Hhttps;
      exists (os_path_join (tempdir w) ("tmp" ++ n));
      unfold bind, NamedTemporaryFile_name, ret; rewrite Hmk;
      (split; [reflexivity | split; [|exact Hnew]]);
      (apply absolute_not_locator;
       [now apply os_path_join_absolute | (now left) || (now right)]).
  - intros He Hssh Hhttps. rewrite He, Hssh, Hhttps. eexists. reflexivity.
Qed.

Lemma select_repo_type_cases_witness :
  (fst (select_repo_type "/home/ci/notebooks" (quiet_world (fun _ => true) no_diff))
   = Ok ("/home/ci/notebooks", Local)
   /\ tmp_names (snd (select_repo_type "/home/ci/notebooks"
                        (quiet_world (fun _ => true) no_diff)))
      = ["k3x9_ab1"; "q0z7yy2m"])
  /\ (exists msg,
        fst (select_repo_type "/home/ci/notebooks" broken_world)
        = Raise (InvalidRepoPath msg))
  /\ (exists tmp,
        fst (select_repo_type "git@github.com:org/repo.git"
               (quiet_world (fun _ => false) no_diff))
        = Ok (tmp, GithubGIT)
        /\ tmp <> "git@github.com:org/repo.git"
        /\ (fun _ : string => false) tmp = false)
  /\ (exists tmp,
        fst (select_repo_type "https://github.com/org/repo"
               (quiet_world (fun _ => false) no_diff))
        = Ok (tmp, GithubHTTPS)
        /\ tmp <> "https://github.com/org/repo"
        /\ (fun _ : string => false) tmp = false)
  /\ (exists msg,
        fst (select_repo_type "notebooks/missing" (quiet_world (fun _ => false) no_diff))
        = Raise (InvalidRepoPath msg)).
Proof.
  assert (Hfree : exists n,
             In n (tmp_names (quiet_world (fun _ => false) no_diff))
             /\ path_exists (quiet_world (fun _ => false) no_diff)
                  (os_path_join (tempdir (quiet_world (fun _ => false) no_diff))
                     ("tmp" ++ n)) = false).
  { exists "k3x9_ab1". split; [left; reflexivity | reflexivity]. }
  repeat apply conj.
  - exact (proj1 (proj1 (select_repo_type_cases "/home/ci/notebooks"
                            (quiet_world (fun _ => true) no_diff)) eq_refl eq_refl)).
  - exact (proj2 (proj1 (select_repo_type_cases "/home/ci/notebooks"
                            (quiet_world (fun _ => true) no_diff)) eq_refl eq_refl)).
  - exact (proj1 (proj2 (select_repo_type_cases "/home/ci/notebooks" broken_world))
             eq_refl eq_refl).
  - exact (proj1 (proj1 (proj2 (proj2 (select_repo_type_cases
                                          "git@github.com:org/repo.git"
                                          (quiet_world (fun _ => false) no_diff))))
                    eq_refl eq_refl Hfree) eq_refl).
  - exact (proj2 (proj1 (proj2 (proj2 (select_repo_type_cases
                                          "https://github.com/org/repo"
                                          (quiet_world (fun _ => false) no_diff))))
                    eq_refl eq_refl Hfree) eq_refl eq_refl).
  - exact (proj2 (proj2 (proj2 (select_repo_type_cases "notebooks/missing"
                                   (quiet_world (fun _ => false) no_diff))))
             eq_refl eq_refl eq_refl).
Defined.

(** ** Parsing of SSH locators *)

Lemma append_assoc (a b c : string) : (a ++ b) ++ c = a ++ (b ++ c).
Proof. induction a as [|x a IH]; simpl; [reflexivity | now rewrite IH]. Qed.

Lemma length_append (a b : string) :
  String.length (a ++ b) = String.length a + String.length b.
Proof. induction a as [|x a IH]; simpl; [reflexivity | now rewrite IH]. Qed.

Lemma startswith_append (pre s : string) : Str.startswith pre (pre ++ s) = true.
Proof.
  induction pre as [|x pre IH]; [reflexivity|].
  cbn [append Str.startswith]. now rewrite Ascii.eqb_refl, IH.
Qed.

Lemma contains_char_append (c : ascii) (a b : string) :
  Str.contains (String c EmptyString) (a ++ b)
  = Str.contains (String c EmptyString) a || Str.contains (String c EmptyString) b.
Proof.
  induction a as [|x a IH].
  - reflexivity.
  - cbn [append]. rewrite !contains_char_cons, IH. now rewrite orb_assoc.
Qed.

Lemma split_spent (sep : ascii) (s : string) : Str.split sep (Some 0) s = [s].
Proof.
  induction s as [|a s IH]; [reflexivity|].
  cbn [Str.split]. rewrite andb_false_r, IH. reflexivity.
Qed.

(** A split cuts at the first separator. *)
Lemma split_at_first (sep : ascii) (k : option nat) (h t : string) :
  k <> Some 0 ->
  Str.contains (String sep EmptyString) h = false ->
  Str.split sep k (h ++ String sep t) = h :: Str.split sep (option_map Nat.pred k) t.
Proof.
  intros Hk. induction h as [|a h IH]; intros Hh.
  - cbn [append Str.split]. rewrite Ascii.eqb_refl.
    destruct k as [[|n]|]; [congruence|reflexivity|reflexivity].
  - rewrite contains_char_cons in Hh. apply orb_false_iff in Hh as [Ha Hh].
    cbn [append Str.split]. rewrite (ascii_eqb_sym a sep), Ha. cbn [andb].
    now rewrite (IH Hh).
Qed.

Lemma rsplit1_at_absent (c : ascii) (s : string) :
  Str.contains (String c EmptyString) s = false ->
  Str.rsplit1_at (String c EmptyString) s = None.
Proof.
  induction s as [|a s IH]; intros H; [reflexivity|].
  rewrite contains_char_cons in H. apply orb_false_iff in H as [Ha Hs].
  cbn [Str.rsplit1_at]. rewrite (IH Hs), startswith_char, Ha. reflexivity.
Qed.

(** [rsplit(c, 1)] cuts at the last [c]. *)
Lemma rsplit1_at_last (c : ascii) (h t : string) :
  Str.contains (String c EmptyString) t = false ->
  Str.rsplit1_at (String c EmptyString) (h ++ String c t) = Some (h, t).
Proof.
  intros Ht. induction h as [|a h IH].
  - cbn [append Str.rsplit1_at]. rewrite (rsplit1_at_absent c t Ht).
    rewrite startswith_char, Ascii.eqb_refl. reflexivity.
  - cbn [append Str.rsplit1_at]. cbn [append] in IH. rewrite IH. reflexivity.
Qed.

Lemma endswith_refl (suf : string) : Str.endswith suf suf = true.
Proof. destruct suf; cbn [Str.endswith]; now rewrite String.eqb_refl. Qed.

Lemma endswith_append (suf a : string) : Str.endswith suf (a ++ suf) = true.
Proof.
  induction a as [|x a IH]; [apply endswith_refl|].
  cbn [append Str.endswith]. rewrite IH. apply orb_true_r.
Qed.

Lemma take_append (a b : string) : Str.take (String.length a) (a ++ b) = a.
Proof. induction a as [|x a IH]; simpl; [now destruct b | now rewrite IH]. Qed.

Lemma drop_last_append (a suf : string) :
  Str.drop_last (String.length suf) (a ++ suf) = a.
Proof.
  unfold Str.drop_last. rewrite length_append.
  replace (String.length a + String.length suf - String.length suf)
    with (String.length a) by lia.
  apply take_append.
Qed.

(** The parts of an SSH shorthand: the host lies between the [@] and the
    last colon, the [.git] suffix is dropped and the rest is cut at its first
    slash. *)
Lemma ssh_shorthand_parts (host org_ repo : string) :
  Str.contains ":" org_ = false ->
  Str.contains "/" org_ = false ->
  Str.contains ":" repo = false ->
  ParseURLToRemoteParts ("git@" ++ host ++ ":" ++ org_ ++ "/" ++ repo ++ ".git")
  = Ok (mkRemoteParts Git host org_ repo).
Proof.
  intros Hoc Hos Hrc.
  assert (Htail : Str.contains ":" (org_ ++ "/" ++ repo ++ ".git") = false).
  { rewrite !contains_char_append, Hoc, Hrc. reflexivity. }
  unfold ParseURLToRemoteParts.
  rewrite startswith_append.
  change ("git@" ++ host ++ ":" ++ org_ ++ "/" ++ repo ++ ".git")
    with ("git" ++ String "@" (host ++ String ":" (org_ ++ "/" ++ repo ++ ".git"))) at 1.
  rewrite split_at_first by (discriminate || reflexivity).
  cbn [option_map Nat.pred]. rewrite split_spent.
  cbn [getitem nth_error rbind].
  unfold Str.rsplit1 at 1. rewrite (rsplit1_at_last ":" host _ Htail).
  cbn [getitem nth_error rbind].
  replace ("git@" ++ host ++ ":" ++ org_ ++ "/" ++ repo ++ ".git")
    with (("git@" ++ host) ++ String ":" (org_ ++ "/" ++ repo ++ ".git"))
    by (now rewrite append_assoc).
  unfold Str.rsplit1. rewrite (rsplit1_at_last ":" _ _ Htail).
  cbn [getitem nth_error rbind].
  replace (org_ ++ "/" ++ repo ++ ".git") with ((org_ ++ "/" ++ repo) ++ ".git")
    by (now rewrite !append_assoc).
  rewrite endswith_append.
  change 4 with (String.length ".git").
  rewrite (drop_last_append (org_ ++ "/" ++ repo) ".git").
  change (org_ ++ "/" ++ repo) with (org_ ++ String "/" repo).
  rewrite split_at_first by (discriminate || exact Hos).
  cbn [option_map Nat.pred]. rewrite split_spent.
  reflexivity.
Qed.

(** C6. For a locator [git@host:org/repo.git] in which neither [org] nor
    [repo] holds a colon and [org] holds no slash, [ParseURLToRemoteParts]
    returns scheme [Git] with [host], [org] and [repo], and the repository
    name keeps no [.git] suffix: the host is recovered by splitting on [@]
    and then on the colon, and [org/repo] is cut at its first slash. *)
Theorem parse_ssh_locator (host org_ repo : string) :
  Str.contains ":" org_ = false ->
  Str.contains "/" org_ = false ->
  Str.contains ":" repo = false ->
  ParseURLToRemoteParts (ssh_locator host org_ repo)
  = Ok (mkRemoteParts Git host org_ repo)
  /\ (forall p, ParseURLToRemoteParts (ssh_locator host org_ repo) = Ok p ->
                scheme p = Git /\ netloc p = host /\ org p = org_ /\ name p = repo).
Proof.
  intros Hoc Hos Hrc. unfold ssh_locator.
  rewrite (ssh_shorthand_parts host org_ repo Hoc Hos Hrc).
  split; [reflexivity|].
  intros p H. injection H as <-. repeat split.
Qed.

Lemma parse_ssh_locator_witness :
  ParseURLToRemoteParts (ssh_locator "github.com" "spacetelescope" "dat_pyinthesky")
  = Ok (mkRemoteParts Git "github.com" "spacetelescope" "dat_pyinthesky").
Proof.
  exact (proj1 (parse_ssh_locator "github.com" "spacetelescope" "dat_pyinthesky"
                  eq_refl eq_refl eq_refl)).
Defined.

(** A host may itself hold a colon: the cut is at the last one. *)
Example ssh_shorthand_with_port :
  ParseURLToRemoteParts "git@example.org:2222:org/repo.git"
  = Ok (mkRemoteParts Git "example.org:2222" "org" "repo").
Proof. reflexivity. Qed.

(** ** Parsing of clone URLs *)

Lemma contains_char_is_mem (c : ascii) (s : string) :
  Str.contains (String c EmptyString) s = Str.mem c s.
Proof.
  induction s as [|a s IH]; [reflexivity|].
  rewrite contains_char_cons, IH. reflexivity.
Qed.

Lemma forallb_append (p : ascii -> bool) (a b : string) :
  Str.forallb p (a ++ b) = Str.forallb p a && Str.forallb p b.
Proof.
  induction a as [|x a IH]; [reflexivity|].
  cbn [append Str.forallb]. now rewrite IH, andb_assoc.
Qed.

Lemma forallb_mem_false (p : ascii -> bool) (c : ascii) (s : string) :
  Str.forallb p s = true -> p c = false -> Str.mem c s = false.
Proof.
  intros Hs Hc. induction s as [|a s IH]; [reflexivity|].
  cbn [Str.forallb] in Hs. apply andb_prop in Hs as [Ha Hs].
  cbn [Str.mem]. rewrite (IH Hs), orb_false_r.
  apply Ascii.eqb_neq. intros ->. congruence.
Qed.

(** [span] stops at the first character that satisfies the test. *)
Lemma span_at_first (p : ascii -> bool) (h t : string) (c : ascii) :
  Str.forallb (fun a => negb (p a)) h = true ->
  p c = true ->
  Str.span p (h ++ String c t) = (h, String c t).
Proof.
  intros Hh Hc. induction h as [|a h IH].
  - cbn [append Str.span]. now rewrite Hc.
  - cbn [Str.forallb] in Hh. apply andb_prop in Hh as [Ha Hh].
    cbn [append Str.span]. apply negb_true_iff in Ha. rewrite Ha.
    now rewrite (IH Hh).
Qed.

Lemma span_absent (p : ascii -> bool) (s : string) :
  Str.forallb (fun a => negb (p a)) s = true ->
  Str.span p s = (s, EmptyString).
Proof.
  induction s as [|a s IH]; intros Hs; [reflexivity|].
  cbn [Str.forallb] in Hs. apply andb_prop in Hs as [Ha Hs].
  cbn [Str.span]. apply negb_true_iff in Ha. rewrite Ha.
  now rewrite (IH Hs).
Qed.

Lemma forallb_impl (p q : ascii -> bool) (s : string) :
  (forall a, p a = true -> q a = true) ->
  Str.forallb p s = true -> Str.forallb q s = true.
Proof.
  intros Hpq. induction s as [|a s IH]; [reflexivity|].
  cbn [Str.forallb]. intros H. apply andb_prop in H as [Ha Hs].
  now rewrite (Hpq a Ha), (IH Hs).
Qed.

(** A character that is not [c] fails [Ascii.eqb c]. *)
Lemma name_char_not (c a : ascii) :
  name_char c = false -> name_char a = true -> negb (Ascii.eqb c a) = true.
Proof.
  intros Hc Ha. apply negb_true_iff, Ascii.eqb_neq. intros ->. congruence.
Qed.

Lemma valid_name_chars (s : string) :
  valid_name s = true -> Str.forallb name_char s = true.
Proof. unfold valid_name. intros H. now apply andb_prop in H as [_ H]. Qed.

Lemma valid_name_cons (s : string) :
  valid_name s = true -> exists a s', s = String a s' /\ name_char a = true.
Proof.
  unfold valid_name. destruct s as [|a s']; [discriminate|].
  cbn [Str.forallb]. intros H.
  apply andb_prop in H as [_ H]. apply andb_prop in H as [Ha _].
  now exists a, s'.
Qed.

Lemma valid_name_no (c : ascii) (s : string) :
  name_char c = false -> valid_name s = true ->
  Str.contains (String c EmptyString) s = false.
Proof.
  intros Hc Hs. rewrite contains_char_is_mem.
  exact (forallb_mem_false name_char c s (valid_name_chars s Hs) Hc).
Qed.

(** [rsplit('.git', 1)] of a string that ends in [.git] cuts that suffix. *)
Lemma rsplit1_at_git_suffix (stem : string) :
  Str.rsplit1_at ".git" (stem ++ ".git") = Some (stem, EmptyString).
Proof.
  induction stem as [|a stem IH]; [reflexivity|].
  cbn [append]. cbn [append] in IH.
  change (Str.rsplit1_at ".git" (String a (stem ++ ".git")))
    with (match Str.rsplit1_at ".git" (stem ++ ".git") with
          | Some (h, t) => Some (String a h, t)
          | None =>
              if Str.startswith ".git" (String a (stem ++ ".git"))
              then Some (EmptyString,
                         Str.drop (String.length ".git") (String a (stem ++ ".git")))
              else None
          end).
  now rewrite IH.
Qed.

Lemma rstrip_clean (chars s : string) :
  s <> EmptyString ->
  Str.forallb (fun a => negb (Str.mem a chars)) s = true ->
  Str.rstrip chars s = s.
Proof.
  induction s as [|a s IH]; intros Hne Hs; [congruence|].
  cbn [Str.forallb] in Hs. apply andb_prop in Hs as [Ha Hs].
  apply negb_true_iff in Ha.
  cbn [Str.rstrip]. destruct s as [|b s].
  - cbn [Str.rstrip]. now rewrite Ha.
  - rewrite IH by (congruence || exact Hs). reflexivity.
Qed.

(** [rstrip] leaves a string alone whose end it leaves alone. *)
Lemma rstrip_append (chars a b : string) :
  Str.rstrip chars b <> EmptyString ->
  Str.rstrip chars (a ++ b) = a ++ Str.rstrip chars b.
Proof.
  intros Hb. induction a as [|x a IH]; [reflexivity|].
  cbn [append Str.rstrip]. rewrite IH.
  destruct (a ++ Str.rstrip chars b) eqn:E; [|reflexivity].
  destruct a; cbn [append] in E; congruence.
Qed.

(** The path [/org/repo] stripped of its slashes. *)
Lemma strip_path (org_ repo : string) :
  valid_name org_ = true -> valid_name repo = true ->
  Str.strip "/" ("/" ++ org_ ++ "/" ++ repo) = org_ ++ "/" ++ repo.
Proof.
  intros Ho Hr.
  destruct (valid_name_cons org_ Ho) as [a [o' [-> Ha]]].
  assert (Hslash : Str.mem a "/" = false).
  { cbn [Str.mem]. rewrite orb_false_r. apply Ascii.eqb_neq.
    intros ->. discriminate Ha. }
  unfold Str.strip.
  cbn [append Str.lstrip]. change (Str.mem "/" "/") with true. cbv iota.
  rewrite Hslash.
  replace (String a (o' ++ String "/" repo)) with ((String a o' ++ "/") ++ repo)
    by (now rewrite append_assoc).
  assert (Hclean : Str.rstrip "/" repo = repo).
  { apply rstrip_clean.
    - destruct (valid_name_cons repo Hr) as [b [r' [-> _]]]. congruence.
    - apply (forallb_impl name_char); [|now apply valid_name_chars].
      intros b Hb. cbn [Str.mem]. rewrite orb_false_r.
      apply negb_true_iff, Ascii.eqb_neq. intros ->. discriminate Hb. }
  rewrite rstrip_append; rewrite Hclean.
  - now rewrite append_assoc.
  - destruct (valid_name_cons repo Hr) as [b [r' [-> _]]]. congruence.
Qed.

Lemma name_char_not_mem (chars : string) (a : ascii) :
  Str.forallb (fun c => negb (name_char c)) chars = true ->
  name_char a = true ->
  negb (Str.mem a chars) = true.
Proof.
  intros Hchars Ha. apply negb_true_iff.
  apply (forallb_mem_false (fun c => negb (name_char c)) a chars Hchars).
  now rewrite Ha.
Qed.

(** Every character of the path [/org/repo.git] is a slash or a name
    character. *)
Lemma path_forallb (p : ascii -> bool) (org_ repo : string) :
  p "/"%char = true ->
  (forall a, name_char a = true -> p a = true) ->
  valid_name org_ = true -> valid_name repo = true ->
  Str.forallb p ("/" ++ org_ ++ "/" ++ repo ++ ".git") = true.
Proof.
  intros Hslash Hname Ho Hr.
  assert (Hn : forall s, Str.forallb name_char s = true -> Str.forallb p s = true)
    by (intros s; now apply forallb_impl).
  rewrite !forallb_append.
  rewrite (Hn org_ (valid_name_chars _ Ho)), (Hn repo (valid_name_chars _ Hr)).
  rewrite (Hn ".git" eq_refl).
  cbn [Str.forallb]. now rewrite Hslash.
Qed.

(** [urlparse] on the clone URL of a repository. *)
Lemma urlparse_clone_url (sc : RemoteScheme) (host org_ repo : string) :
  sc <> Git ->
  valid_name host = true -> valid_name org_ = true -> valid_name repo = true ->
  urlparse (clone_url (RemoteScheme_value sc) host org_ repo)
  = Ok (mkParseResult (RemoteScheme_value sc) host
          ("/" ++ org_ ++ "/" ++ repo ++ ".git") "" "" "").
Proof.
  intros Hsc Hh Ho Hr.
  set (path := "/" ++ org_ ++ "/" ++ repo ++ ".git").
  assert (Hscheme :
    split_scheme (clone_url (RemoteScheme_value sc) host org_ repo)
    = (RemoteScheme_value sc, "//" ++ host ++ path))
    by (destruct sc; [congruence | reflexivity | reflexivity]).
  assert (Hnetloc : split_netloc ("//" ++ host ++ path) = (host, path)).
  { unfold split_netloc. rewrite startswith_append.
    change (Str.drop 2 ("//" ++ host ++ path)) with (host ++ path).
    apply span_at_first; [|reflexivity].
    apply (forallb_impl name_char); [|now apply valid_name_chars].
    intros a Ha. now apply name_char_not_mem. }
  assert (Hcut : forall c, name_char c = false -> Ascii.eqb c "/" = false ->
                           cut_at c path = (path, "")).
  { intros c Hc Hcs. unfold cut_at. rewrite span_absent; [reflexivity|].
    apply path_forallb; try assumption.
    - now rewrite Hcs.
    - intros a Ha. now apply name_char_not. }
  assert (Hsemi : Str.mem ";" path = false).
  { apply (forallb_mem_false (fun a => negb (Ascii.eqb ";" a))); [|reflexivity].
    apply path_forallb; try assumption; [reflexivity|].
    intros a Ha. now apply name_char_not. }
  unfold urlparse. rewrite Hscheme, Hnetloc.
  rewrite (forallb_mem_false name_char "[" host (valid_name_chars _ Hh) eq_refl).
  rewrite (forallb_mem_false name_char "]" host (valid_name_chars _ Hh) eq_refl).
  cbn [xorb].
  rewrite (Hcut "#"%char eq_refl eq_refl), (Hcut "?"%char eq_refl eq_refl).
  rewrite Hsemi, andb_false_r. reflexivity.
Qed.

(** For the clone URL [http(s)://host/org/repo.git] of valid names,
    [ParseURLToRemoteParts] returns the scheme, [host], [org] and [repo]. *)
Lemma parse_clone_url (sc : RemoteScheme) (host org_ repo : string) :
  sc <> Git ->
  valid_name host = true -> valid_name org_ = true -> valid_name repo = true ->
  ParseURLToRemoteParts (clone_url (RemoteScheme_value sc) host org_ repo)
  = Ok (mkRemoteParts sc host org_ repo).
Proof.
  intros Hsc Hh Ho Hr.
  unfold ParseURLToRemoteParts.
  replace (Str.startswith "git@" (clone_url (RemoteScheme_value sc) host org_ repo))
    with false by (destruct sc; [congruence | reflexivity | reflexivity]).
  replace (Str.startswith "http" (clone_url (RemoteScheme_value sc) host org_ repo))
    with true by (destruct sc; [congruence | reflexivity | reflexivity]).
  replace (Str.endswith ".git" (clone_url (RemoteScheme_value sc) host org_ repo))
    with true.
  2:{ unfold clone_url.
      replace (RemoteScheme_value sc ++ "://" ++ host ++ "/" ++ org_ ++ "/" ++ repo ++ ".git")
        with ((RemoteScheme_value sc ++ "://" ++ host ++ "/" ++ org_ ++ "/" ++ repo) ++ ".git")
        by (now rewrite !append_assoc).
      now rewrite endswith_append. }
  cbn [andb].
  rewrite (urlparse_clone_url sc host org_ repo Hsc Hh Ho Hr).
  cbn [rbind pr_scheme pr_netloc pr_path].
  replace (scheme_of_value (RemoteScheme_value sc)) with (Ok sc)
    by (destruct sc; reflexivity).
  cbn [rbind].
  replace ("/" ++ org_ ++ "/" ++ repo ++ ".git") with (("/" ++ org_ ++ "/" ++ repo) ++ ".git")
    by (now rewrite !append_assoc).
  unfold Str.rsplit1. rewrite rsplit1_at_git_suffix.
  cbn [getitem nth_error rbind].
  rewrite (strip_path org_ repo Ho Hr).
  change (org_ ++ "/" ++ repo) with (org_ ++ String "/" repo).
  rewrite split_at_first by (discriminate || now apply valid_name_no).
  cbn [option_map].
  rewrite split_absent by (now apply valid_name_no).
  reflexivity.
Qed.

(** ** The remote matcher *)



(** * Further properties of the classifier *)

(** ** Pieces of a split *)

Lemma split_nonempty (sep : ascii) (k : option nat) (s : string) :
  Str.split sep k s <> [].
Proof.
  revert k; induction s as [|a s IH]; intros k; cbn [Str.split].
  - discriminate.
  - destruct (Ascii.eqb a sep && _); [discriminate|].
    destruct (Str.split sep k s); discriminate.
Qed.

Lemma split_length (sep : ascii) (n : nat) (s : string) :
  List.length (Str.split sep (Some n) s) <= S n.
Proof.
  revert n; induction s as [|a s IH]; intros n; cbn [Str.split].
  - simpl. lia.
  - destruct n as [|n].
    + rewrite andb_false_r. rewrite split_spent. simpl. lia.
    + rewrite andb_true_r. destruct (Ascii.eqb a sep).
      * cbn [option_map Nat.pred List.length]. specialize (IH n). lia.
      * specialize (IH (S n)).
        destruct (Str.split sep (Some (S n)) s); simpl in *; lia.
Qed.

(** Every piece of a split but the last is free of the separator, and so
    is the last one when [maxsplit] was not used up. *)
Lemma split_pieces (sep : ascii) (k : option nat) (s : string) :
  Forall (no_sep sep) (removelast (Str.split sep k s))
  /\ (within_maxsplit k (Str.split sep k s) -> Forall (no_sep sep) (Str.split sep k s)).
Proof.
  revert k; induction s as [|a s IH]; intros k.
  - cbn [Str.split removelast]. split; [constructor|].
    intros _. constructor; [reflexivity|constructor].
  - cbn [Str.split].
    destruct k as [[|n]|].
    + rewrite andb_false_r, split_spent. cbn [removelast].
      split; [constructor|]. simpl. lia.
    + rewrite andb_true_r. destruct (Ascii.eqb a sep) eqn:Ha.
      * cbn [option_map Nat.pred]. destruct (IH (Some n)) as [IH1 IH2].
        assert (Hne := split_nonempty sep (Some n) s).
        split.
        -- cbn [removelast].
           destruct (Str.split sep (Some n) s) as [|h t] eqn:Hs; [congruence|].
           constructor; [reflexivity|exact IH1].
        -- intros Hk. cbn [within_maxsplit List.length] in Hk.
           constructor; [reflexivity|]. apply IH2. simpl. lia.
      * destruct (IH (Some (S n))) as [IH1 IH2].
        destruct (Str.split sep (Some (S n)) s) as [|h t] eqn:Hs.
        { exfalso. exact (split_nonempty sep (Some (S n)) s Hs). }
        assert (Hcons : forall h', no_sep sep h' -> no_sep sep (String a h')).
        { intros h' Hh'. unfold no_sep. rewrite contains_char_cons.
          rewrite (ascii_eqb_sym sep a), Ha. exact Hh'. }
        split.
        -- destruct t as [|h2 t]; [constructor|].
           change (removelast (String a h :: h2 :: t))
             with (String a h :: removelast (h2 :: t)).
           change (removelast (h :: h2 :: t)) with (h :: removelast (h2 :: t)) in IH1.
           inversion IH1; subst. constructor; [now apply Hcons|assumption].
        -- intros Hk. specialize (IH2 Hk). inversion IH2; subst.
           constructor; [now apply Hcons|assumption].
    + rewrite andb_true_r. destruct (Ascii.eqb a sep) eqn:Ha.
      * cbn [option_map]. destruct (IH None) as [IH1 IH2].
        assert (Hne := split_nonempty sep None s).
        split.
        -- cbn [removelast].
           destruct (Str.split sep None s) as [|h t] eqn:Hs; [congruence|].
           constructor; [reflexivity|exact IH1].
        -- intros _. constructor; [reflexivity|]. now apply IH2.
      * destruct (IH None) as [IH1 IH2].
        destruct (Str.split sep None s) as [|h t] eqn:Hs.
        { exfalso. exact (split_nonempty sep None s Hs). }
        assert (Hcons : forall h', no_sep sep h' -> no_sep sep (String a h')).
        { intros h' Hh'. unfold no_sep. rewrite contains_char_cons.
          rewrite (ascii_eqb_sym sep a), Ha. exact Hh'. }
        split.
        -- destruct t as [|h2 t]; [constructor|].
           change (removelast (String a h :: h2 :: t))
             with (String a h :: removelast (h2 :: t)).
           change (removelast (h :: h2 :: t)) with (h :: removelast (h2 :: t)) in IH1.
           inversion IH1; subst. constructor; [now apply Hcons|assumption].
        -- intros _. specialize (IH2 I). inversion IH2; subst.
           constructor; [now apply Hcons|assumption].
Qed.

Lemma unpack2_ok (l : list string) (a b : string) :
  unpack2 l = Ok (a, b) -> l = [a; b].
Proof.
  destruct l as [|x [|y [|z l]]]; cbn [unpack2]; intros H;
    try discriminate H. now injection H as -> ->.
Qed.

Lemma unpack3_ok (l : list string) (a b c : string) :
  unpack3 l = Ok (a, b, c) -> l = [a; b; c].
Proof.
  destruct l as [|x [|y [|z [|u l]]]]; cbn [unpack3]; intros H;
    try discriminate H. now injection H as -> -> ->.
Qed.

(** The segments [split('/', 2)] hands to the two unpackings. *)
Lemma segments_unpack (s : string) :
  let l := Str.split "/" (Some 2) s in
  (exists a b c, l = [a; b; c] /\ no_sep "/" a /\ no_sep "/" b)
  \/ (exists a b, l = [a; b] /\ no_sep "/" a /\ no_sep "/" b)
  \/ (exists a, l = [a]).
Proof.
  intros l.
  assert (Hne := split_nonempty "/" (Some 2) s).
  assert (Hlen := split_length "/" 2 s).
  destruct (split_pieces "/" (Some 2) s) as [Hinit Hall].
  fold l in Hne, Hlen, Hinit, Hall.
  destruct l as [|a [|b [|c [|d l]]]].
  - congruence.
  - right; right. now exists a.
  - right; left. exists a, b.
    assert (H : Forall (no_sep "/") [a; b]) by (apply Hall; simpl; lia).
    inversion H as [|? ? Ha H']; subst. inversion H' as [|? ? Hb ?]; subst.
    now repeat split.
  - left. exists a, b, c.
    change (removelast [a; b; c]) with [a; b] in Hinit.
    inversion Hinit as [|? ? Ha H']; subst. inversion H' as [|? ? Hb ?]; subst.
    now repeat split.
  - simpl in Hlen. lia.
Qed.

(** A split that gives one piece gives the string itself. *)
Lemma split_single (sep : ascii) (k : option nat) (s a : string) :
  Str.split sep k s = [a] -> a = s.
Proof.
  revert k a; induction s as [|c s IH]; intros k a.
  - cbn [Str.split]. intros H. now injection H as <-.
  - cbn [Str.split].
    destruct (Ascii.eqb c sep && _).
    + intros H. injection H as _ H. exfalso. exact (split_nonempty _ _ _ H).
    + destruct (Str.split sep k s) as [|h t] eqn:Hs.
      * intros _. exfalso. exact (split_nonempty _ _ _ Hs).
      * intros H. injection H as <- ->. f_equal. now apply (IH k).
Qed.

(** X1. Every failure of [select_url_type] is one of four: the repository
    type is [Local]; [urlparse] itself raised, and its exception passes
    through unchanged; the path has a single segment and the fallback
    unpacking raises [ValueError]; or the third segment does not start with
    [pull].  The subscripts and unpackings of the function raise nothing
    else: no [IndexError] from [[0]] and no unpacking of too many values. *)
Theorem select_url_type_failures (url : string) (repo_type : RepoType) (e : exn) :
  select_url_type url repo_type = Raise e ->
  (repo_type = Local /\ e = NotImplementedError (ArgRepoType Local))
  \/ (repo_type <> Local /\ urlparse url = Raise e)
  \/ (repo_type <> Local
      /\ (exists url_parts,
            urlparse url = Ok url_parts
            /\ Str.contains "/" (Str.strip "/" (pr_path url_parts)) = false)
      /\ e = ValueError (NotEnoughValues 2 1))
  \/ (repo_type <> Local
      /\ (exists url_parts org_ repo rest,
            urlparse url = Ok url_parts
            /\ Str.split "/" (Some 2) (Str.strip "/" (pr_path url_parts))
               = [org_; repo; rest]
            /\ Str.startswith "pull" rest = false)
      /\ e = NotImplementedError ArgNone).
Proof.
  intros H.
  destruct repo_type; cbn [select_url_type] in H.
  { left. split; [reflexivity|]. now injection H as <-. }
  all: right;
    unfold rbind in H;
    destruct (urlparse url) as [url_parts|e'] eqn:Hu;
    [| injection H as <-; left; split; [discriminate | reflexivity]];
    right;
    destruct (segments_unpack (Str.strip "/" (pr_path url_parts)))
      as [[a [b [c [Hl _]]]]|[[a [b [Hl _]]]|[a Hl]]];
    rewrite Hl in H; cbn [unpack3 unpack2 List.length] in H.
  1,4: destruct (Str.startswith "pull" c) eqn:Hpull;
    [| injection H as <-; right; split; [discriminate|];
       split; [exists url_parts, a, b, c; now repeat split | reflexivity]];
    destruct (getitem _ 0) as [pr_num|e'] eqn:Hg;
    [ rewrite (split_head_clean "/" (Some 1) (Str.strip "pull/" c) pr_num) in H;
      [discriminate H | discriminate | exact Hg]
    | exfalso; unfold getitem in Hg;
      destruct (Str.split "/" (Some 1) (Str.strip "pull/" c)) eqn:Hs;
      [exact (split_nonempty _ _ _ Hs) | discriminate Hg] ].
  1,3: discriminate H.
  all: injection H as <-; left; split; [discriminate|];
    split; [|reflexivity]; exists url_parts; split; [reflexivity|];
    destruct (Str.contains "/" (Str.strip "/" (pr_path url_parts))) eqn:Hc;
    [|reflexivity];
    exfalso;
    destruct (split_pieces "/" (Some 2) (Str.strip "/" (pr_path url_parts)))
      as [_ Hall];
    rewrite Hl in Hall;
    assert (Hclean : Forall (no_sep "/") [a]) by (apply Hall; simpl; lia);
    inversion Hclean as [|? ? Ha ?]; subst;
    assert (Hjoin := split_single "/" (Some 2) _ a Hl);
    subst a; unfold no_sep in Ha; congruence.
Qed.

Lemma select_url_type_failures_witness :
  (GithubHTTPS = Local
   /\ ValueError (NotEnoughValues 2 1) = NotImplementedError (ArgRepoType Local))
  \/ (GithubHTTPS <> Local
      /\ urlparse "https://github.com/orgonly" = Raise (ValueError (NotEnoughValues 2 1)))
  \/ (GithubHTTPS <> Local
      /\ (exists url_parts,
            urlparse "https://github.com/orgonly" = Ok url_parts
            /\ Str.contains "/" (Str.strip "/" (pr_path url_parts)) = false)
      /\ ValueError (NotEnoughValues 2 1) = ValueError (NotEnoughValues 2 1))
  \/ (GithubHTTPS <> Local
      /\ (exists url_parts org_ repo rest,
            urlparse "https://github.com/orgonly" = Ok url_parts
            /\ Str.split "/" (Some 2) (Str.strip "/" (pr_path url_parts))
               = [org_; repo; rest]
            /\ Str.startswith "pull" rest = false)
      /\ ValueError (NotEnoughValues 2 1) = NotImplementedError ArgNone).
Proof.
  exact (select_url_type_failures "https://github.com/orgonly" GithubHTTPS
           (ValueError (NotEnoughValues 2 1)) eq_refl).
Defined.

(** X2. Whatever [select_url_type] returns, the organization and the
    repository name hold no slash; a [GithubRepoURL] carries the number 0
    and a [GithubPullRequest] carries a string without a slash. *)
Theorem select_url_type_result (url : string) (repo_type : RepoType) (r : URLParts) :
  select_url_type url repo_type = Ok r ->
  repo_type <> Local
  /\ Str.contains "/" (up_org r) = false
  /\ Str.contains "/" (up_repo_name r) = false
  /\ match url_type r with
     | GithubRepoURL => pull_request_number r = PyInt 0
     | GithubPullRequest =>
         exists pr_num,
           pull_request_number r = PyStr pr_num
           /\ Str.contains "/" pr_num = false
     end.
Proof.
  intros H.
  destruct repo_type; cbn [select_url_type] in H; [discriminate H| |].
  all: split; [discriminate|];
    unfold rbind in H;
    destruct (urlparse url) as [url_parts|e'] eqn:Hu; [|discriminate H];
    destruct (segments_unpack (Str.strip "/" (pr_path url_parts)))
      as [[a [b [c [Hl [Ha Hb]]]]]|[[a [b [Hl [Ha Hb]]]]|[a Hl]]];
    rewrite Hl in H; cbn [unpack3 unpack2 List.length] in H.
  1,4: destruct (Str.startswith "pull" c); [|discriminate H];
    destruct (getitem _ 0) as [pr_num|e'] eqn:Hg; [|discriminate H];
    assert (Hclean := split_head_clean "/" (Some 1) (Str.strip "pull/" c) pr_num
                        ltac:(discriminate) Hg);
    rewrite Hclean in H; injection H as <-;
    cbn [up_org up_repo_name url_type pull_request_number];
    repeat split; try assumption; now exists pr_num.
  1,3: injection H as <-;
    cbn [up_org up_repo_name url_type pull_request_number];
    repeat split; assumption.
  all: discriminate H.
Qed.

Lemma select_url_type_result_witness :
  GithubHTTPS <> Local
  /\ Str.contains "/" "org" = false
  /\ Str.contains "/" "repo" = false
  /\ exists pr_num, PyStr "125" = PyStr pr_num /\ Str.contains "/" pr_num = false.
Proof.
  exact (select_url_type_result "https://github.com/org/repo/pull/125/files"
           GithubHTTPS (mkURLParts GithubPullRequest "org" "repo" (PyStr "125"))
           eq_refl).
Defined.

(** ** URLs made of names *)

Lemma path_char_name (a : ascii) : name_char a = true -> path_char a = true.
Proof. unfold path_char. now intros ->. Qed.

Lemma is_number_valid (n : string) : is_number n = true -> valid_name n = true.
Proof.
  unfold is_number, valid_name. intros H. apply andb_prop in H as [Hne Hd].
  rewrite Hne. cbn [andb]. apply (forallb_impl Str.is_digit); [|exact Hd].
  intros a Ha. unfold name_char. now rewrite Ha, orb_true_r.
Qed.

(** [urlparse] on scheme, host and a path of names: nothing but the three
    is found. *)
Lemma urlparse_plain (sc : RemoteScheme) (host path : string) :
  sc <> Git ->
  valid_name host = true ->
  Str.forallb path_char path = true ->
  Str.startswith "/" path = true ->
  urlparse (RemoteScheme_value sc ++ "://" ++ host ++ path)
  = Ok (mkParseResult (RemoteScheme_value sc) host path "" "" "").
Proof.
  intros Hsc Hh Hp Hroot.
  assert (Hscheme :
    split_scheme (RemoteScheme_value sc ++ "://" ++ host ++ path)
    = (RemoteScheme_value sc, "//" ++ host ++ path))
    by (destruct sc; [congruence | reflexivity | reflexivity]).
  assert (Hnetloc : split_netloc ("//" ++ host ++ path) = (host, path)).
  { unfold split_netloc. rewrite startswith_append.
    change (Str.drop 2 ("//" ++ host ++ path)) with (host ++ path).
    destruct path as [|c t]; [discriminate Hroot|].
    rewrite startswith_char in Hroot. apply Ascii.eqb_eq in Hroot. subst c.
    apply span_at_first; [|reflexivity].
    apply (forallb_impl name_char); [|now apply valid_name_chars].
    intros a Ha. now apply name_char_not_mem. }
  assert (Hnot : forall c, path_char c = false ->
                           Str.forallb (fun a => negb (Ascii.eqb c a)) path = true).
  { intros c Hc. apply (forallb_impl path_char); [|exact Hp].
    intros a Ha. apply negb_true_iff, Ascii.eqb_neq. intros ->. congruence. }
  assert (Hcut : forall c, path_char c = false -> cut_at c path = (path, "")).
  { intros c Hc. unfold cut_at. now rewrite span_absent by (now apply Hnot). }
  assert (Hsemi : Str.mem ";" path = false).
  { apply (forallb_mem_false (fun a => negb (Ascii.eqb ";" a))); [|reflexivity].
    now apply Hnot. }
  unfold urlparse. rewrite Hscheme, Hnetloc.
  rewrite (forallb_mem_false name_char "[" host (valid_name_chars _ Hh) eq_refl).
  rewrite (forallb_mem_false name_char "]" host (valid_name_chars _ Hh) eq_refl).
  cbn [xorb].
  rewrite (Hcut "#"%char eq_refl), (Hcut "?"%char eq_refl).
  rewrite Hsemi, andb_false_r. reflexivity.
Qed.

Lemma forallb_path_name (s : string) :
  valid_name s = true -> Str.forallb path_char s = true.
Proof.
  intros H. apply (forallb_impl name_char); [exact path_char_name|].
  now apply valid_name_chars.
Qed.

(** Stripping the slashes of a path that ends in a name leaves what follows
    the leading slash. *)
Lemma strip_rooted (first rest last : string) :
  valid_name first = true -> valid_name last = true ->
  Str.strip "/" ("/" ++ first ++ rest ++ last) = first ++ rest ++ last.
Proof.
  intros Hf Hl.
  destruct (valid_name_cons first Hf) as [a [f' [-> Ha]]].
  assert (Hslash : Str.mem a "/" = false).
  { cbn [Str.mem]. rewrite orb_false_r. apply Ascii.eqb_neq.
    intros ->. discriminate Ha. }
  unfold Str.strip.
  cbn [append Str.lstrip]. change (Str.mem "/" "/") with true. cbv iota.
  rewrite Hslash.
  assert (Hne : last <> EmptyString).
  { destruct (valid_name_cons last Hl) as [b [l' [-> _]]]. congruence. }
  assert (Hclean : Str.rstrip "/" last = last).
  { apply rstrip_clean; [exact Hne|].
    apply (forallb_impl name_char); [|now apply valid_name_chars].
    intros b Hb. cbn [Str.mem]. rewrite orb_false_r.
    apply negb_true_iff, Ascii.eqb_neq. intros ->. discriminate Hb. }
  replace (String a (f' ++ rest ++ last)) with ((String a f' ++ rest) ++ last)
    by (now rewrite append_assoc).
  rewrite rstrip_append; rewrite Hclean; [reflexivity|exact Hne].
Qed.

(** X3. On the browse URL [http(s)://host/org/repo] of valid names,
    [select_url_type] with either GitHub repository type returns a
    [GithubRepoURL] of [org] and [repo] with pull-request number 0. *)
Theorem select_url_type_browse_url (sc : RemoteScheme) (repo_type : RepoType)
    (host org_ repo : string) :
  sc <> Git -> repo_type <> Local ->
  valid_name host = true -> valid_name org_ = true -> valid_name repo = true ->
  select_url_type (browse_url (RemoteScheme_value sc) host org_ repo) repo_type
  = Ok (mkURLParts GithubRepoURL org_ repo (PyInt 0)).
Proof.
  intros Hsc Ht Hh Ho Hr.
  assert (Hu : urlparse (browse_url (RemoteScheme_value sc) host org_ repo)
               = Ok (mkParseResult (RemoteScheme_value sc) host
                       ("/" ++ org_ ++ "/" ++ repo) "" "" "")).
  { apply (urlparse_plain sc host ("/" ++ org_ ++ "/" ++ repo)); try assumption.
    - rewrite !forallb_append, (forallb_path_name _ Ho), (forallb_path_name _ Hr).
      reflexivity.
    - reflexivity. }
  assert (Hs : Str.split "/" (Some 2) (Str.strip "/" ("/" ++ org_ ++ "/" ++ repo))
               = [org_; repo]).
  { rewrite (strip_rooted org_ "/" repo Ho Hr).
    change (org_ ++ "/" ++ repo) with (org_ ++ String "/" repo).
    rewrite split_at_first by (discriminate || now apply valid_name_no).
    cbn [option_map Nat.pred].
    now rewrite split_absent by (now apply valid_name_no). }
  destruct repo_type; [congruence| |];
    unfold select_url_type; rewrite Hu; cbn [rbind pr_path]; rewrite Hs; reflexivity.
Qed.

Lemma select_url_type_browse_url_witness :
  select_url_type "https://github.com/spacetelescope/dat_pyinthesky" GithubGIT
  = Ok (mkURLParts GithubRepoURL "spacetelescope" "dat_pyinthesky" (PyInt 0)).
Proof.
  exact (select_url_type_browse_url Https GithubGIT
           "github.com" "spacetelescope" "dat_pyinthesky"
           ltac:(discriminate) ltac:(discriminate) eq_refl eq_refl eq_refl).
Defined.

Lemma lstrip_clean (chars s : string) :
  Str.forallb (fun a => negb (Str.mem a chars)) s = true ->
  Str.lstrip chars s = s.
Proof.
  destruct s as [|a s]; [reflexivity|].
  cbn [Str.forallb Str.lstrip]. intros H. apply andb_prop in H as [Ha _].
  apply negb_true_iff in Ha. now rewrite Ha.
Qed.

Lemma digits_not_in (chars n : string) :
  Str.forallb (fun c => negb (Str.is_digit c)) chars = true ->
  Str.forallb Str.is_digit n = true ->
  Str.forallb (fun a => negb (Str.mem a chars)) n = true.
Proof.
  intros Hc. apply forallb_impl. intros a Ha. apply negb_true_iff.
  apply (forallb_mem_false (fun c => negb (Str.is_digit c)) a chars Hc).
  now rewrite Ha.
Qed.

(** What [strip('pull/')] leaves of [pull/<digits>]. *)
Lemma strip_pull_number (n : string) :
  is_number n = true -> Str.strip "pull/" ("pull/" ++ n) = n.
Proof.
  unfold is_number. intros H. apply andb_prop in H as [Hne Hd].
  assert (Hclean := digits_not_in "pull/" n eq_refl Hd).
  unfold Str.strip.
  change (Str.lstrip "pull/" ("pull/" ++ n)) with (Str.lstrip "pull/" n).
  rewrite (lstrip_clean _ _ Hclean).
  apply rstrip_clean; [|exact Hclean].
  intros ->. discriminate Hne.
Qed.

(** X4. On the pull-request URL [http(s)://host/org/repo/pull/<digits>] of
    valid names, [select_url_type] returns a [GithubPullRequest] of [org] and
    [repo] whose number is the digit string itself. *)
Theorem select_url_type_pull_url (sc : RemoteScheme) (repo_type : RepoType)
    (host org_ repo number : string) :
  sc <> Git -> repo_type <> Local ->
  valid_name host = true -> valid_name org_ = true -> valid_name repo = true ->
  is_number number = true ->
  select_url_type (pull_url (RemoteScheme_value sc) host org_ repo number) repo_type
  = Ok (mkURLParts GithubPullRequest org_ repo (PyStr number)).
Proof.
  intros Hsc Ht Hh Ho Hr Hn.
  assert (Hv := is_number_valid number Hn).
  set (path := "/" ++ org_ ++ ("/" ++ repo ++ "/pull/") ++ number).
  assert (Hurl : pull_url (RemoteScheme_value sc) host org_ repo number
                 = RemoteScheme_value sc ++ "://" ++ host ++ path).
  { unfold pull_url, path. now rewrite !append_assoc. }
  assert (Hu : urlparse (pull_url (RemoteScheme_value sc) host org_ repo number)
               = Ok (mkParseResult (RemoteScheme_value sc) host path "" "" "")).
  { rewrite Hurl. apply urlparse_plain; try assumption; [|reflexivity].
    unfold path.
    rewrite !forallb_append, (forallb_path_name _ Ho), (forallb_path_name _ Hr),
      (forallb_path_name _ Hv).
    reflexivity. }
  assert (Hs : Str.split "/" (Some 2) (Str.strip "/" path)
               = [org_; repo; "pull/" ++ number]).
  { unfold path. rewrite (strip_rooted org_ ("/" ++ repo ++ "/pull/") number Ho Hv).
    replace (org_ ++ ("/" ++ repo ++ "/pull/") ++ number)
      with (org_ ++ String "/" (repo ++ String "/" ("pull/" ++ number)))
      by (cbn [append]; now rewrite !append_assoc).
    rewrite split_at_first by (discriminate || now apply valid_name_no).
    cbn [option_map Nat.pred].
    rewrite split_at_first by (discriminate || now apply valid_name_no).
    cbn [option_map Nat.pred]. now rewrite split_spent. }
  assert (Hnum : Str.split "/" (Some 1) (Str.strip "pull/" ("pull/" ++ number))
                 = [number]).
  { rewrite (strip_pull_number number Hn).
    apply split_absent. now apply valid_name_no. }
  assert (Hno : Str.contains "/" number = false) by (now apply valid_name_no).
  destruct repo_type; [congruence| |];
    unfold select_url_type; rewrite Hu; cbn [rbind pr_path]; rewrite Hs;
    cbn [unpack3 rbind];
    change (Str.startswith "pull" ("pull/" ++ number)) with true; cbv iota;
    rewrite Hnum;
    cbn [getitem nth_error rbind]; rewrite Hno; reflexivity.
Qed.

Lemma select_url_type_pull_url_witness :
  select_url_type "https://github.com/spacetelescope/dat_pyinthesky/pull/125" GithubHTTPS
  = Ok (mkURLParts GithubPullRequest "spacetelescope" "dat_pyinthesky" (PyStr "125")).
Proof.
  exact (select_url_type_pull_url Https GithubHTTPS
           "github.com" "spacetelescope" "dat_pyinthesky" "125"
           ltac:(discriminate) ltac:(discriminate) eq_refl eq_refl eq_refl eq_refl).
Defined.

(** ** Further properties of the remote parser *)

Lemma last_char_append (a b : string) :
  b <> EmptyString -> last_char (a ++ b) = last_char b.
Proof.
  intros Hb. induction a as [|x a IH]; [reflexivity|].
  cbn [append last_char]. rewrite IH.
  destruct (a ++ b) eqn:E; [|reflexivity].
  destruct a; cbn [append] in E; congruence.
Qed.

Lemma endswith_last_char (suf s : string) (c : ascii) :
  Str.endswith suf s = true -> last_char suf = Some c -> last_char s = Some c.
Proof.
  intros H Hc. induction s as [|a s IH].
  - cbn [Str.endswith] in H. rewrite orb_false_r in H.
    apply String.eqb_eq in H. now subst suf.
  - cbn [Str.endswith] in H. apply orb_prop in H as [H|H].
    + apply String.eqb_eq in H. now subst suf.
    + specialize (IH H). cbn [last_char]. now destruct s.
Qed.

Lemma last_char_forallb (p : ascii -> bool) (s : string) (c : ascii) :
  Str.forallb p s = true -> last_char s = Some c -> p c = true.
Proof.
  induction s as [|a s IH]; [discriminate|].
  cbn [Str.forallb last_char]. intros H Hc. apply andb_prop in H as [Ha Hs].
  destruct s; [injection Hc as <-; exact Ha | now apply IH].
Qed.

(** A string that ends in a digit does not end in [.git]. *)
Lemma number_not_git (pre n : string) :
  is_number n = true -> Str.endswith ".git" (pre ++ n) = false.
Proof.
  unfold is_number. intros H. apply andb_prop in H as [Hne Hd].
  destruct (Str.endswith ".git" (pre ++ n)) eqn:E; [|reflexivity].
  assert (Hn : n <> EmptyString) by (intros ->; discriminate Hne).
  assert (Hl := endswith_last_char ".git" (pre ++ n) "t" E eq_refl).
  rewrite (last_char_append pre n Hn) in Hl.
  now assert (Ht := last_char_forallb Str.is_digit n "t" Hd Hl).
Qed.

Lemma contains_append_r (sub a b : string) :
  Str.contains sub b = true -> Str.contains sub (a ++ b) = true.
Proof.
  intros Hb. induction a as [|x a IH]; [exact Hb|].
  cbn [append Str.contains]. rewrite IH. apply orb_true_r.
Qed.

Lemma contains_prefix (sub b : string) : Str.contains sub (sub ++ b) = true.
Proof.
  destruct (sub ++ b) eqn:E; cbn [Str.contains]; rewrite <- E;
    now rewrite startswith_append.
Qed.

(** X5. For the clone URL [http(s)://host/org/repo.git] of valid names,
    [ParseURLToRemoteParts] returns the scheme of the URL with [host],
    [org] and [repo], the [.git] suffix dropped. *)
Theorem clone_url_parts (sc : RemoteScheme) (host org_ repo : string) :
  sc <> Git ->
  valid_name host = true -> valid_name org_ = true -> valid_name repo = true ->
  ParseURLToRemoteParts (clone_url (RemoteScheme_value sc) host org_ repo)
  = Ok (mkRemoteParts sc host org_ repo).
Proof. exact (parse_clone_url sc host org_ repo). Qed.

Lemma clone_url_parts_witness :
  ParseURLToRemoteParts "http://github.com/spacetelescope/dat_pyinthesky.git"
  = Ok (mkRemoteParts Http "github.com" "spacetelescope" "dat_pyinthesky").
Proof.
  exact (clone_url_parts Http "github.com" "spacetelescope" "dat_pyinthesky"
           ltac:(discriminate) eq_refl eq_refl eq_refl).
Defined.

(** [ParseURLToRemoteParts] on a pull-request URL of valid names. *)
Lemma parse_pull_url (sc : RemoteScheme) (host org_ repo number : string) :
  sc <> Git ->
  valid_name host = true -> valid_name org_ = true -> valid_name repo = true ->
  is_number number = true ->
  ParseURLToRemoteParts (pull_url (RemoteScheme_value sc) host org_ repo number)
  = Ok (mkRemoteParts sc host org_ repo).
Proof.
  intros Hsc Hh Ho Hr Hn.
  assert (Hv := is_number_valid number Hn).
  set (url := pull_url (RemoteScheme_value sc) host org_ repo number).
  set (path := "/" ++ org_ ++ ("/" ++ repo ++ "/pull/") ++ number).
  assert (Hurl : url = RemoteScheme_value sc ++ "://" ++ host ++ path).
  { unfold url, pull_url, path. now rewrite !append_assoc. }
  assert (Hgit : Str.startswith "git@" url = false)
    by (unfold url; destruct sc; [congruence | reflexivity | reflexivity]).
  assert (Hhttp : Str.startswith "http" url = true)
    by (unfold url; destruct sc; [congruence | reflexivity | reflexivity]).
  assert (Hend : Str.endswith ".git" url = false).
  { unfold url, pull_url.
    replace (RemoteScheme_value sc ++ "://" ++ host ++ "/" ++ org_ ++ "/" ++ repo
             ++ "/pull/" ++ number)
      with ((RemoteScheme_value sc ++ "://" ++ host ++ "/" ++ org_ ++ "/" ++ repo
             ++ "/pull/") ++ number)
      by (now rewrite !append_assoc).
    now apply number_not_git. }
  assert (Hpull : Str.contains "pull/" url = true).
  { unfold url, pull_url.
    replace (RemoteScheme_value sc ++ "://" ++ host ++ "/" ++ org_ ++ "/" ++ repo
             ++ "/pull/" ++ number)
      with ((RemoteScheme_value sc ++ "://" ++ host ++ "/" ++ org_ ++ "/" ++ repo
             ++ "/") ++ "pull/" ++ number)
      by (now rewrite !append_assoc).
    apply contains_append_r, contains_prefix. }
  assert (Hu : urlparse url
               = Ok (mkParseResult (RemoteScheme_value sc) host path "" "" "")).
  { rewrite Hurl. apply urlparse_plain; try assumption; [|reflexivity].
    unfold path.
    rewrite !forallb_append, (forallb_path_name _ Ho), (forallb_path_name _ Hr),
      (forallb_path_name _ Hv).
    reflexivity. }
  assert (Hs : Str.split "/" (Some 2) (Str.strip "/" path)
               = [org_; repo; "pull/" ++ number]).
  { unfold path. rewrite (strip_rooted org_ ("/" ++ repo ++ "/pull/") number Ho Hv).
    replace (org_ ++ ("/" ++ repo ++ "/pull/") ++ number)
      with (org_ ++ String "/" (repo ++ String "/" ("pull/" ++ number)))
      by (cbn [append]; now rewrite !append_assoc).
    rewrite split_at_first by (discriminate || now apply valid_name_no).
    cbn [option_map Nat.pred].
    rewrite split_at_first by (discriminate || now apply valid_name_no).
    cbn [option_map Nat.pred]. now rewrite split_spent. }
  unfold ParseURLToRemoteParts.
  rewrite Hgit, Hhttp, Hend, Hpull, Hu. cbn [andb rbind pr_scheme pr_netloc pr_path].
  replace (scheme_of_value (RemoteScheme_value sc)) with (Ok sc)
    by (destruct sc; reflexivity).
  cbn [rbind]. rewrite Hs. reflexivity.
Qed.

(** X6. For the pull-request URL [http(s)://host/org/repo/pull/<digits>] of
    valid names, [ParseURLToRemoteParts] returns the scheme with [host],
    [org] and [repo]: the pull-request suffix is dropped. *)
Theorem pull_url_parts (sc : RemoteScheme) (host org_ repo number : string) :
  sc <> Git ->
  valid_name host = true -> valid_name org_ = true -> valid_name repo = true ->
  is_number number = true ->
  ParseURLToRemoteParts (pull_url (RemoteScheme_value sc) host org_ repo number)
  = Ok (mkRemoteParts sc host org_ repo).
Proof. exact (parse_pull_url sc host org_ repo number). Qed.

Lemma pull_url_parts_witness :
  ParseURLToRemoteParts "https://github.com/spacetelescope/dat_pyinthesky/pull/125"
  = Ok (mkRemoteParts Https "github.com" "spacetelescope" "dat_pyinthesky").
Proof.
  exact (pull_url_parts Https "github.com" "spacetelescope" "dat_pyinthesky" "125"
           ltac:(discriminate) eq_refl eq_refl eq_refl eq_refl).
Defined.

(** X7. Whatever [ParseURLToRemoteParts] returns, the organization holds no
    slash, and neither does the repository name unless the locator is an SSH
    shorthand, whose path is cut at its first slash only. *)
Theorem parsed_parts_without_slash (url : string) (p : RemoteParts) :
  ParseURLToRemoteParts url = Ok p ->
  Str.contains "/" (org p) = false
  /\ (Str.startswith "git@" url = false -> Str.contains "/" (name p) = false)
  /\ (Str.startswith "git@" url = true -> scheme p = Git).
Proof.
  unfold ParseURLToRemoteParts, rbind. intros H.
  destruct (Str.startswith "git@" url).
  - destruct (getitem _ 1) as [after_at|]; [|discriminate H].
    destruct (getitem _ 0) as [nl|]; [|discriminate H].
    destruct (getitem _ 1) as [path|]; [|discriminate H].
    set (path' := if Str.endswith ".git" path then Str.drop_last 4 path else path) in H.
    destruct (unpack2 _) as [[o n]|] eqn:Hun; [|discriminate H].
    injection H as <-. cbn [org name scheme].
    apply unpack2_ok in Hun.
    destruct (split_pieces "/" (Some 1) path') as [Hinit _].
    rewrite Hun in Hinit. change (removelast [o; n]) with [o] in Hinit.
    inversion Hinit; subst. repeat split; [assumption|discriminate].
  - destruct (Str.startswith "http" url && Str.endswith ".git" url).
    + destruct (urlparse url) as [parts|]; [|discriminate H].
      destruct (scheme_of_value _) as [sc|]; [|discriminate H].
      destruct (getitem _ 0) as [stem|]; [|discriminate H].
      destruct (unpack2 _) as [[o n]|] eqn:Hun; [|discriminate H].
      injection H as <-. cbn [org name scheme].
      apply unpack2_ok in Hun.
      destruct (split_pieces "/" None (Str.strip "/" stem)) as [_ Hall].
      specialize (Hall I). rewrite Hun in Hall.
      inversion Hall as [|? ? Ho H']; subst. inversion H' as [|? ? Hn ?]; subst.
      repeat split; [assumption | intros _; assumption | discriminate].
    + destruct (Str.startswith "http" url && Str.contains "pull/" url);
        [|discriminate H].
      destruct (urlparse url) as [parts|]; [|discriminate H].
      destruct (scheme_of_value _) as [sc|]; [|discriminate H].
      destruct (unpack3 _) as [[[o n] rest]|] eqn:Hun; [|discriminate H].
      injection H as <-. cbn [org name scheme].
      apply unpack3_ok in Hun.
      destruct (split_pieces "/" (Some 2) (Str.strip "/" (pr_path parts))) as [Hinit _].
      rewrite Hun in Hinit. change (removelast [o; n; rest]) with [o; n] in Hinit.
      inversion Hinit as [|? ? Ho H']; subst. inversion H' as [|? ? Hn ?]; subst.
      repeat split; [assumption | intros _; assumption | discriminate].
Qed.

Lemma parsed_parts_without_slash_witness :
  Str.contains "/" "org" = false
  /\ (Str.startswith "git@" "git@github.com:org/group/repo.git" = false ->
      Str.contains "/" "group/repo" = false)
  /\ (Str.startswith "git@" "git@github.com:org/group/repo.git" = true -> Git = Git).
Proof.
  exact (parsed_parts_without_slash "git@github.com:org/group/repo.git"
           (mkRemoteParts Git "github.com" "org" "group/repo") eq_refl).
Defined.

Lemma startswith_inv (pre s : string) :
  Str.startswith pre s = true -> exists rest, s = pre ++ rest.
Proof.
  revert s; induction pre as [|a pre IH]; intros s H.
  - now exists s.
  - destruct s as [|b s]; [discriminate H|].
    cbn [Str.startswith] in H. apply andb_prop in H as [Hab Hs].
    apply Ascii.eqb_eq in Hab. subst b.
    destruct (IH s Hs) as [rest ->]. now exists rest.
Qed.

(** X8. An SSH shorthand without a colon makes [ParseURLToRemoteParts] raise
    [IndexError]: [rsplit(':', 1)] has one element and the path is taken at
    index 1. *)
Theorem ssh_shorthand_without_colon (url : string) :
  Str.startswith "git@" url = true ->
  Str.contains ":" url = false ->
  ParseURLToRemoteParts url = Raise IndexError.
Proof.
  intros Hssh Hcolon.
  destruct (startswith_inv "git@" url Hssh) as [rest ->].
  assert (Hrest : Str.contains ":" rest = false).
  { rewrite contains_char_append in Hcolon.
    now apply orb_false_iff in Hcolon as [_ Hcolon]. }
  unfold ParseURLToRemoteParts. rewrite Hssh.
  change ("git@" ++ rest) with ("git" ++ String "@" rest) in *.
  rewrite split_at_first by (discriminate || reflexivity).
  cbn [option_map Nat.pred]. rewrite split_spent.
  cbn [getitem nth_error rbind].
  unfold Str.rsplit1.
  rewrite (rsplit1_at_absent ":" rest Hrest).
  rewrite (rsplit1_at_absent ":" ("git" ++ String "@" rest) Hcolon).
  reflexivity.
Qed.

Lemma ssh_shorthand_without_colon_witness :
  ParseURLToRemoteParts "git@github.com" = Raise IndexError.
Proof. exact (ssh_shorthand_without_colon "git@github.com" eq_refl eq_refl). Defined.

Lemma contains_char_take (c : ascii) (n : nat) (s : string) :
  Str.contains (String c EmptyString) s = false ->
  Str.contains (String c EmptyString) (Str.take n s) = false.
Proof.
  revert n; induction s as [|a s IH]; intros n H.
  - now destruct n.
  - destruct n as [|n]; [reflexivity|].
    rewrite contains_char_cons in H. apply orb_false_iff in H as [Ha Hs].
    cbn [Str.take]. rewrite contains_char_cons, Ha. now apply IH.
Qed.

(** X9. An SSH shorthand [git@host:path] whose path holds neither colon nor
    slash makes [ParseURLToRemoteParts] raise the [ValueError] of unpacking
    one value into [org, repo_name]. *)
Theorem ssh_shorthand_without_slash (host path : string) :
  Str.contains ":" path = false ->
  Str.contains "/" path = false ->
  ParseURLToRemoteParts ("git@" ++ host ++ ":" ++ path)
  = Raise (ValueError (NotEnoughValues 2 1)).
Proof.
  intros Hc Hs.
  unfold ParseURLToRemoteParts.
  rewrite startswith_append.
  change ("git@" ++ host ++ ":" ++ path)
    with ("git" ++ String "@" (host ++ String ":" path)) at 1.
  rewrite split_at_first by (discriminate || reflexivity).
  cbn [option_map Nat.pred]. rewrite split_spent.
  cbn [getitem nth_error rbind].
  unfold Str.rsplit1 at 1. rewrite (rsplit1_at_last ":" host path Hc).
  cbn [getitem nth_error rbind].
  replace ("git@" ++ host ++ ":" ++ path) with (("git@" ++ host) ++ String ":" path)
    by (now rewrite append_assoc).
  unfold Str.rsplit1. rewrite (rsplit1_at_last ":" _ path Hc).
  cbn [getitem nth_error rbind].
  assert (Hp : Str.contains "/"
                 (if Str.endswith ".git" path then Str.drop_last 4 path else path)
               = false).
  { destruct (Str.endswith ".git" path); [|exact Hs].
    unfold Str.drop_last. now apply contains_char_take. }
  rewrite (split_absent "/" (Some 1) _ Hp). reflexivity.
Qed.

Lemma ssh_shorthand_without_slash_witness :
  ParseURLToRemoteParts "git@github.com:dat_pyinthesky.git"
  = Raise (ValueError (NotEnoughValues 2 1)).
Proof.
  exact (ssh_shorthand_without_slash "github.com" "dat_pyinthesky.git" eq_refl eq_refl).
Defined.

(** X10. The scheme lookup inverts [RemoteScheme.value]: it finds the member
    of a value that has one, and raises [NotImplementedError] carrying the
    value for every other string. *)
Theorem scheme_of_value_inverse (v : string) :
  (forall sc, scheme_of_value v = Ok sc <-> v = RemoteScheme_value sc)
  /\ ((forall sc, v <> RemoteScheme_value sc) ->
      scheme_of_value v = Raise (NotImplementedError (ArgStr v))).
Proof.
  unfold scheme_of_value. cbn [filter RemoteScheme_value].
  destruct (String.eqb_spec "git" v) as [<-|Hg].
  { split.
    - intros sc. split; [intros H; injection H as <-; reflexivity|].
      destruct sc; cbn [RemoteScheme_value]; intros H;
        [reflexivity | discriminate H | discriminate H].
    - intros H. now specialize (H Git). }
  destruct (String.eqb_spec "http" v) as [<-|Hh].
  { split.
    - intros sc. split; [intros H; injection H as <-; reflexivity|].
      destruct sc; cbn [RemoteScheme_value]; intros H;
        [discriminate H | reflexivity | discriminate H].
    - intros H. now specialize (H Http). }
  destruct (String.eqb_spec "https" v) as [<-|Hs].
  { split.
    - intros sc. split; [intros H; injection H as <-; reflexivity|].
      destruct sc; cbn [RemoteScheme_value]; intros H;
        [discriminate H | discriminate H | reflexivity].
    - intros H. now specialize (H Https). }
  split; [|reflexivity].
  intros sc. split; [discriminate|].
  destruct sc; cbn [RemoteScheme_value]; congruence.
Qed.

Lemma scheme_of_value_inverse_witness :
  scheme_of_value "ftp" = Raise (NotImplementedError (ArgStr "ftp")).
Proof.
  apply (proj2 (scheme_of_value_inverse "ftp")).
  intros sc; destruct sc; discriminate.
Defined.

(** X11. The locators of one repository name the same remote: the parts
    parsed from its SSH shorthand, its clone URLs and its pull-request URLs
    differ in scheme only, and a remote configured from any of them matches
    every other one. *)
Theorem locators_name_one_remote (host org_ repo number : string) :
  valid_name host = true -> valid_name org_ = true -> valid_name repo = true ->
  is_number number = true ->
  forall url1 url2,
    In url1 (locators host org_ repo number) ->
    In url2 (locators host org_ repo number) ->
    exists sc,
      ParseURLToRemoteParts url1 = Ok (mkRemoteParts sc host org_ repo)
      /\ forall remote_name fetch_,
           is_match (mkGitConfigRemote remote_name (mkRemoteParts sc host org_ repo) fetch_)
             url2 = Ok true.
Proof.
  intros Hh Ho Hr Hn.
  assert (Hparse : forall url, In url (locators host org_ repo number) ->
            exists sc, ParseURLToRemoteParts url = Ok (mkRemoteParts sc host org_ repo)).
  { intros url Hin. unfold locators in Hin. cbn [In] in Hin.
    destruct Hin as [<-|[<-|[<-|[<-|[<-|[]]]]]].
    - exists Git. unfold ssh_locator.
      apply ssh_shorthand_parts; now apply valid_name_no.
    - exists Https. exact (parse_clone_url Https host org_ repo ltac:(discriminate) Hh Ho Hr).
    - exists Http. exact (parse_clone_url Http host org_ repo ltac:(discriminate) Hh Ho Hr).
    - exists Https.
      exact (parse_pull_url Https host org_ repo number ltac:(discriminate) Hh Ho Hr Hn).
    - exists Http.
      exact (parse_pull_url Http host org_ repo number ltac:(discriminate) Hh Ho Hr Hn). }
  intros url1 url2 H1 H2.
  destruct (Hparse url1 H1) as [sc Hp1]. destruct (Hparse url2 H2) as [sc2 Hp2].
  exists sc. split; [exact Hp1|].
  intros remote_name fetch_. unfold is_match. rewrite Hp2.
  cbn [rbind parts netloc org name]. now rewrite !String.eqb_refl.
Qed.

Lemma locators_name_one_remote_witness :
  exists sc,
    ParseURLToRemoteParts "https://github.com/spacetelescope/dat_pyinthesky/pull/125"
    = Ok (mkRemoteParts sc "github.com" "spacetelescope" "dat_pyinthesky")
    /\ forall remote_name fetch_,
         is_match (mkGitConfigRemote remote_name
                     (mkRemoteParts sc "github.com" "spacetelescope" "dat_pyinthesky")
                     fetch_)
           "git@github.com:spacetelescope/dat_pyinthesky.git" = Ok true.
Proof.
  apply (locators_name_one_remote "github.com" "spacetelescope" "dat_pyinthesky" "125"
           eq_refl eq_refl eq_refl eq_refl).
  - right; right; right; left; reflexivity.
  - left; reflexivity.
Defined.

(** * Further properties of the session *)

(** ** Scope entry *)

(** X12. Scope entry of a session that is not local makes exactly one git
    call, the clone of the session's url into its path, and returns the
    session itself, or raises what the clone raises. *)
Theorem enter_clones_once (self : Repo) (w : World) :
  repo_type self <> Local ->
  let clone := Repo_clone_from (repo_url self) (repo_path self) in
  __enter__ self w
  = (match git_raises w (git_log w) clone with
     | Some e => Raise e
     | None => Ok self
     end,
     set_log (git_log w ++ [clone]) w).
Proof.
  intros Ht clone. unfold __enter__, _sync_repo_locally, bind, git, ret.
  destruct (repo_type self); [congruence| |]; fold clone;
    destruct (git_raises w (git_log w) clone); reflexivity.
Qed.

Lemma enter_clones_once_witness :
  __enter__ (session_of GithubHTTPS []) (quiet_world (fun _ => false) no_diff)
  = (Ok (session_of GithubHTTPS []),
     set_log [Repo_clone_from (Some "https://github.com/org/repo") "/tmp/tmpk3x9_ab1"]
       (quiet_world (fun _ => false) no_diff)).
Proof.
  exact (enter_clones_once (session_of GithubHTTPS [])
           (quiet_world (fun _ => false) no_diff) ltac:(discriminate)).
Defined.

(** ** Release in a world where git can raise *)

Lemma git_log_after (c : GitCall) (w : World) :
  snd (git c w) = set_log (git_log w ++ [c]) w.
Proof. unfold git. now destruct (git_raises w (git_log w) c). Qed.

(** Staging adds the recorded files in order and stops at the first add
    that raises. *)
Lemma for_each_add_log (files : list string) (w : World) :
  exists k,
    snd (for_each files (fun filepath => git (git_add filepath)) w)
    = set_log (git_log w ++ map git_add (firstn k files)) w
    /\ (forall r, fst (for_each files (fun filepath => git (git_add filepath)) w) = Ok r ->
                  firstn k files = files).
Proof.
  revert w; induction files as [|f files IH]; intros w.
  - exists 0. cbn [for_each ret firstn map snd fst]. rewrite app_nil_r.
    split; [now destruct w | reflexivity].
  - cbn [for_each]. unfold bind.
    destruct (git (git_add f) w) as [[[]|e] w1] eqn:Hg.
    + assert (Hw1 : w1 = set_log (git_log w ++ [git_add f]) w)
        by (rewrite <- git_log_after, Hg; reflexivity).
      destruct (IH w1) as [k [Hlog Hok]].
      exists (S k). rewrite Hlog. subst w1.
      cbn [firstn map set_log git_log]. rewrite <- app_assoc.
      split; [reflexivity|]. intros r Hr. now rewrite (Hok r Hr).
    + exists 1.
      assert (Hw1 : w1 = set_log (git_log w ++ [git_add f]) w)
        by (rewrite <- git_log_after, Hg; reflexivity).
      cbn [snd fst]. subst w1. cbn [firstn map].
      split; [reflexivity | discriminate].
Qed.

(** The calls of the body shared by the two remote branches of a release:
    open, adds, diff against [ref], then commit and push when [commits_when]
    holds of the number of diff entries.  The body only appends to the git
    log; it opens first, stays within the fixed sequence, and when it
    returns it has stopped right after the diff or run the whole sequence. *)
Lemma release_body_calls (ref : string) (commits_when : nat -> bool)
    (self : Repo) (w : World) :
  exists made rest r,
    (git (Repo_open (repo_path self)) ;;;
     for_each (_altered_files self) (fun filepath => git (git_add filepath)) ;;;
     n <-- len_index_diff ref ;;
     if commits_when n then
       git (index_commit commit_message) ;;;
       git (repo_remote "origin") ;;;
       git remote_push
     else ret tt) w
    = (r, set_log (git_log w ++ made) w)
    /\ release_calls ref self = (made ++ rest)%list
    /\ (exists later, made = Repo_open (repo_path self) :: later)
    /\ (r = Ok tt ->
        rest = []
        \/ rest = [index_commit commit_message; repo_remote "origin"; remote_push]).
Proof.
  unfold release_calls.
  set (files := _altered_files self).
  set (opened := Repo_open (repo_path self)).
  unfold bind at 1.
  destruct (git opened w) as [[[]|e] w1] eqn:H1;
    assert (Hw1 : w1 = set_log (git_log w ++ [opened]) w)
      by (rewrite <- git_log_after, H1; reflexivity).
  2:{ exists [opened]. eexists. exists (Raise e). subst w1.
      repeat split; [now exists [] | discriminate]. }
  unfold bind at 1.
  destruct (for_each_add_log files w1) as [k [Hlog Hok]].
  destruct (for_each files _ w1) as [[[]|e] w2] eqn:H2; cbn [snd fst] in Hlog, Hok.
  2:{ exists (opened :: map git_add (firstn k files)).
      exists (map git_add (skipn k files)
              ++ [index_diff ref; index_commit commit_message;
                  repo_remote "origin"; remote_push])%list.
      exists (Raise e).
      subst w2 w1. cbn [set_log git_log]. repeat split.
      - now rewrite <- app_assoc.
      - cbn [app]. f_equal. rewrite app_assoc, <- map_app.
        now rewrite firstn_skipn.
      - now eexists.
      - discriminate. }
  rewrite (Hok tt eq_refl) in Hlog.
  assert (Hw2 : w2 = set_log (git_log w ++ opened :: map git_add files) w).
  { subst w2 w1. cbn [set_log git_log]. now rewrite <- app_assoc. }
  clear Hlog Hok H1 H2 Hw1.
  unfold bind at 1. unfold len_index_diff.
  destruct (git (index_diff ref) w2) as [[[]|e] w3] eqn:H3;
    assert (Hw3 : w3 = set_log (git_log w2 ++ [index_diff ref]) w2)
      by (rewrite <- git_log_after, H3; reflexivity).
  2:{ exists (opened :: map git_add files ++ [index_diff ref])%list.
      eexists. exists (Raise e).
      subst w3 w2. cbn [set_log git_log]. repeat split.
      - now rewrite <- !app_assoc.
      - cbn [app]. f_equal. rewrite <- app_assoc. reflexivity.
      - now eexists.
      - discriminate. }
  destruct (commits_when _).
  2:{ exists (opened :: map git_add files ++ [index_diff ref])%list.
      eexists. exists (Ok tt).
      subst w3 w2. cbn [ret set_log git_log]. repeat split.
      - now rewrite <- !app_assoc.
      - cbn [app]. f_equal. rewrite <- app_assoc. reflexivity.
      - now eexists.
      - intros _. now right. }
  unfold bind at 1.
  destruct (git (index_commit commit_message) w3) as [[[]|e] w4] eqn:H4;
    assert (Hw4 : w4 = set_log (git_log w3 ++ [index_commit commit_message]) w3)
      by (rewrite <- git_log_after, H4; reflexivity).
  2:{ exists (opened :: map git_add files
              ++ [index_diff ref; index_commit commit_message])%list.
      eexists. exists (Raise e).
      subst w4 w3 w2. cbn [set_log git_log]. repeat split.
      - now rewrite <- !app_assoc.
      - cbn [app]. f_equal. rewrite <- app_assoc. reflexivity.
      - now eexists.
      - discriminate. }
  unfold bind at 1.
  destruct (git (repo_remote "origin") w4) as [[[]|e] w5] eqn:H5;
    assert (Hw5 : w5 = set_log (git_log w4 ++ [repo_remote "origin"]) w4)
      by (rewrite <- git_log_after, H5; reflexivity).
  2:{ exists (opened :: map git_add files
              ++ [index_diff ref; index_commit commit_message; repo_remote "origin"])%list.
      eexists. exists (Raise e).
      subst w5 w4 w3 w2. cbn [set_log git_log]. repeat split.
      - now rewrite <- !app_assoc.
      - cbn [app]. f_equal. rewrite <- app_assoc. reflexivity.
      - now eexists.
      - discriminate. }
  exists (opened :: map git_add files
          ++ [index_diff ref; index_commit commit_message; repo_remote "origin";
              remote_push])%list, [].
  exists (fst (git remote_push w5)).
  assert (Hw6 : snd (git remote_push w5) = set_log (git_log w5 ++ [remote_push]) w5)
    by apply git_log_after.
  destruct (git remote_push w5) as [r6 w6]. cbn [fst snd] in *.
  subst w6 w5 w4 w3 w2. cbn [set_log git_log]. repeat split.
  - now rewrite <- !app_assoc.
  - now rewrite app_nil_r.
  - now eexists.
  - intros _. now left.
Qed.

(** X13. A release only appends to the git log.  For a [Local] session it
    appends nothing and returns.  For the two GitHub types, whatever git
    raises, the calls appended start with the opening of the repository and
    are an initial part of one fixed sequence: open, add the recorded files
    in order, take the diff against the ref of the type, commit, look up
    [origin], push; and a release that returns has stopped right after the
    diff or has run the whole sequence.  So a release never pushes without
    having committed and commits and pushes at most once. *)
Theorem release_calls_in_order (remote branch : string) (self : Repo) (w : World) :
  exists made rest r,
    _sync_repo_remote remote branch self w = (r, set_log (git_log w ++ made) w)
    /\ match repo_type self with
       | Local => made = [] /\ r = Ok tt
       | _ =>
           release_calls (release_ref remote branch (repo_type self)) self
           = (made ++ rest)%list
           /\ (exists later, made = Repo_open (repo_path self) :: later)
           /\ (r = Ok tt ->
               rest = []
               \/ rest = [index_commit commit_message; repo_remote "origin";
                          remote_push])
       end.
Proof.
  unfold _sync_repo_remote, release_ref.
  destruct (repo_type self).
  - exists [], [], (Ok tt). unfold ret. rewrite app_nil_r.
    split; [now destruct w | now split].
  - exact (release_body_calls "origin/master"
             (fun n => negb (n =? 0)%nat || (0 <? List.length (_altered_files self))%nat)
             self w).
  - exact (release_body_calls (remote ++ "/" ++ branch)
             (fun n => negb (n =? 0)%nat) self w).
Qed.

(** X14. When no git call raises, the release of a session that is not
    local opens the repository, adds every recorded file in order, takes the
    diff against the ref of its type and, when the diff has an entry (or,
    for [GithubGIT] only, a file was recorded), commits, looks up [origin]
    and pushes; it makes no other call. *)
Theorem release_when_git_returns (remote branch : string) (self : Repo) (w : World) :
  never_raises w ->
  repo_type self <> Local ->
  let staged :=
    (git_log w ++ Repo_open (repo_path self) :: map git_add (_altered_files self))%list in
  let ref := release_ref remote branch (repo_type self) in
  let recorded :=
    match repo_type self with
    | GithubGIT => (0 <? List.length (_altered_files self))%nat
    | _ => false
    end in
  _sync_repo_remote remote branch self w
  = (Ok tt,
     set_log
       (staged ++ index_diff ref ::
          (if negb (diff_entries w staged ref =? 0)%nat || recorded
           then [index_commit commit_message; repo_remote "origin"; remote_push]
           else []))
       w).
Proof.
  intros Hq Ht. destruct (repo_type self) eqn:Etype; [congruence| |]; cbv zeta.
  - cbn [release_ref]. exact (release_GithubGIT remote branch self w Hq Etype).
  - cbn [release_ref]. rewrite orb_false_r.
    exact (release_GithubHTTPS remote branch self w Hq Etype).
Qed.

Lemma release_when_git_returns_witness :
  _sync_repo_remote DEFAULT_REMOTE DEFAULT_BRANCH
    (session_of GithubHTTPS ["notebooks/foo.ipynb"])
    (quiet_world (fun _ => true) diff_but_master)
  = (Ok tt,
     set_log [Repo_open "/tmp/tmpk3x9_ab1"; git_add "notebooks/foo.ipynb";
              index_diff "origin/main";
              index_commit commit_message; repo_remote "origin"; remote_push]
       (quiet_world (fun _ => true) diff_but_master)).
Proof.
  exact (release_when_git_returns DEFAULT_REMOTE DEFAULT_BRANCH
           (session_of GithubHTTPS ["notebooks/foo.ipynb"])
           (quiet_world (fun _ => true) diff_but_master)
           (fun _ _ => eq_refl) ltac:(discriminate)).
Defined.

(** X15. When opening the repository raises, the release of a session that
    is not local stops there with that exception: nothing is staged,
    compared, committed or pushed. *)
Theorem release_stops_when_open_raises (remote branch : string) (self : Repo)
    (w : World) (e : exn) :
  repo_type self <> Local ->
  git_raises w (git_log w) (Repo_open (repo_path self)) = Some e ->
  __exit__ remote branch self w
  = (Raise e, set_log (git_log w ++ [Repo_open (repo_path self)]) w).
Proof.
  intros Ht He. unfold __exit__, _sync_repo_remote.
  destruct (repo_type self); [congruence| |];
    unfold bind at 1; unfold git at 1; rewrite He; reflexivity.
Qed.

Lemma release_stops_when_open_raises_witness :
  __exit__ DEFAULT_REMOTE DEFAULT_BRANCH
    (session_of GithubGIT ["notebooks/foo.ipynb"]) broken_world
  = (Raise InvalidGitRepositoryError,
     set_log [Repo_open "/tmp/tmpk3x9_ab1"] broken_world).
Proof.
  exact (release_stops_when_open_raises DEFAULT_REMOTE DEFAULT_BRANCH
           (session_of GithubGIT ["notebooks/foo.ipynb"]) broken_world
           InvalidGitRepositoryError ltac:(discriminate) eq_refl).
Defined.

(** ** The locator, seen from its result *)


(** X16. [select_repo_type] calls git only to open a path that exists; the
    type it returns is [Local] exactly when the path exists, even when the
    path reads like a GitHub locator, and a GitHub type only for a missing
    path with the matching prefix. *)
Theorem select_repo_type_result (repo_path : string) (w : World) :
  git_log (snd (select_repo_type repo_path w))
  = (if path_exists w repo_path then git_log w ++ [Repo_open repo_path] else git_log w)%list
  /\ forall path type_,
       fst (select_repo_type repo_path w) = Ok (path, type_) ->
       match type_ with
       | Local => path_exists w repo_path = true /\ path = repo_path
       | GithubGIT =>
           path_exists w repo_path = false
           /\ Str.startswith "git@github.com" repo_path = true
       | GithubHTTPS =>
           path_exists w repo_path = false
           /\ Str.startswith "https://github.com" repo_path = true
       end.
Proof.
  unfold select_repo_type.
  destruct (path_exists w repo_path).
  - unfold git. destruct (git_raises w (git_log w) (Repo_open repo_path)) as [e|].
    + split; [now destruct e|]. intros path type_ H. destruct e; discriminate H.
    + split; [reflexivity|]. intros path type_ H. cbn [fst] in H.
      injection H as <- <-. now split.
  - destruct (Str.startswith "git@github.com" repo_path);
      [|destruct (Str.startswith "https://github.com" repo_path)].
    3:{ split; [reflexivity|]. intros path type_ H. discriminate H. }
    all: unfold bind, NamedTemporaryFile_name, ret;
      destruct (mkstemp_inner _ _ _) as [[tmp|e] rest];
      (split; [reflexivity|]); intros path type_ H; cbn [fst] in H;
      [injection H as <- <-; now split | discriminate H].
Qed.



Lemma select_repo_type_result_witness :
  git_log (snd (select_repo_type "git@github.com:org/repo.git"
                  (quiet_world (fun _ => true) no_diff)))
  = [Repo_open "git@github.com:org/repo.git"]
  /\ ((fun _ : string => true) "git@github.com:org/repo.git" = true
      /\ "git@github.com:org/repo.git" = "git@github.com:org/repo.git").
Proof.
  split.
  - exact (proj1 (select_repo_type_result "git@github.com:org/repo.git"
                    (quiet_world (fun _ => true) no_diff))).
  - exact (proj2 (select_repo_type_result "git@github.com:org/repo.git"
                    (quiet_world (fun _ => true) no_diff))
             "git@github.com:org/repo.git" Local eq_refl).
Defined.

(** ** A whole scope *)

(** X18. A scope on an existing checkout whose body does nothing makes one
    git call in all, the opening of the path that validates it: entry and
    release add none. *)
Theorem empty_scope_local (remote branch repo_path : string) (w : World) :
  path_exists w repo_path = true ->
  git_raises w (git_log w) (Repo_open repo_path) = None ->
  empty_scope remote branch repo_path w
  = (Ok tt, set_log (git_log w ++ [Repo_open repo_path]) w).
Proof.
  intros He Hr.
  unfold empty_scope, __init__, __enter__, __exit__, bind at 1 2.
  unfold select_repo_type, git. rewrite He, Hr.
  reflexivity.
Qed.

Lemma empty_scope_local_witness :
  empty_scope DEFAULT_REMOTE DEFAULT_BRANCH "/home/ci/notebooks"
    (quiet_world (fun _ => true) diff_but_master)
  = (Ok tt,
     set_log [Repo_open "/home/ci/notebooks"]
       (quiet_world (fun _ => true) diff_but_master)).
Proof.
  exact (empty_scope_local DEFAULT_REMOTE DEFAULT_BRANCH "/home/ci/notebooks"
           (quiet_world (fun _ => true) diff_but_master) eq_refl eq_refl).
Defined.

Lemma never_raises_set_tmp_names (l : list string) (w : World) :
  never_raises w -> never_raises (set_tmp_names l w).
Proof. intros Hq l' c. exact (Hq l' c). Qed.

(** X19. A scope on a GitHub locator whose body does nothing, in a world
    where no git call raises and [tempfile] hands out [tmp]: the input
    string is cloned into [tmp], [tmp] is opened on release, the diff is
    taken against the ref of the type, and the session commits and pushes
    exactly when that diff has an entry. *)
Theorem empty_scope_remote (remote branch locator tmp : string) (type_ : RepoType)
    (w : World) :
  never_raises w ->
  fst (select_repo_type locator w) = Ok (tmp, type_) ->
  type_ <> Local ->
  let ref := release_ref remote branch type_ in
  let opened := (git_log w ++ [Repo_clone_from (Some locator) tmp; Repo_open tmp])%list in
  fst (empty_scope remote branch locator w) = Ok tt
  /\ git_log (snd (empty_scope remote branch locator w))
     = (opened ++ index_diff ref ::
          (if negb (diff_entries w opened ref =? 0)%nat
           then [index_commit commit_message; repo_remote "origin"; remote_push]
           else []))%list.
Proof.
  intros Hq Hsel Ht ref opened.
  assert (Hw : exists rest,
             select_repo_type locator w = (Ok (tmp, type_), set_tmp_names rest w)).
  { revert Hsel. unfold select_repo_type.
    destruct (path_exists w locator).
    - unfold git. rewrite Hq. cbn [fst]. intros H. injection H as _ <-. congruence.
    - destruct (Str.startswith "git@github.com" locator);
        [|destruct (Str.startswith "https://github.com" locator)].
      3:{ discriminate. }
      all: unfold bind, NamedTemporaryFile_name, ret;
        destruct (mkstemp_inner _ _ _) as [[tmp'|e'] rest]; cbn [fst];
        intros H; [injection H as <- <-; now exists rest | discriminate H]. }
  destruct Hw as [rest Hw].
  set (w1 := set_tmp_names rest w) in *.
  assert (Hq1 : never_raises w1) by (now apply never_raises_set_tmp_names).
  set (self := mkRepo tmp (Some locator) type_ []).
  assert (Hinit : __init__ locator w = (Ok self, w1)).
  { unfold __init__, bind. rewrite Hw. unfold ret, self. now destruct type_. }
  set (clone := Repo_clone_from (Some locator) tmp).
  assert (Henter : __enter__ self w1 = (Ok self, set_log (git_log w ++ [clone]) w1)).
  { unfold __enter__, _sync_repo_locally, bind, ret. cbn [repo_type self].
    destruct type_; [congruence| |]; rewrite (git_quiet _ _ Hq1); reflexivity. }
  set (w2 := set_log (git_log w ++ [clone]) w1) in *.
  assert (Hq2 : never_raises w2) by (now apply never_raises_set_log).
  assert (Hstaged : (git_log w2 ++ Repo_open (repo_path self)
                       :: map git_add (_altered_files self))%list
                    = opened).
  { unfold opened. cbn [w2 set_log git_log self repo_path _altered_files map].
    now rewrite <- app_assoc. }
  assert (Hrun : empty_scope remote branch locator w
                 = _sync_repo_remote remote branch self w2).
  { unfold empty_scope, bind. rewrite Hinit, Henter. reflexivity. }
  rewrite Hrun.
  assert (Hdiff : diff_entries w2 = diff_entries w) by reflexivity.
  destruct type_ eqn:Etype; [congruence| |].
  - rewrite (release_GithubGIT remote branch self w2 Hq2 eq_refl).
    cbv zeta. rewrite Hstaged, Hdiff. cbn [fst snd set_log git_log].
    change (0 <? List.length (_altered_files self))%nat with false.
    rewrite orb_false_r. split; reflexivity.
  - rewrite (release_GithubHTTPS remote branch self w2 Hq2 eq_refl).
    cbv zeta. rewrite Hstaged, Hdiff. cbn [fst snd set_log git_log].
    split; reflexivity.
Qed.

Lemma empty_scope_remote_witness :
  fst (empty_scope DEFAULT_REMOTE DEFAULT_BRANCH "https://github.com/org/repo"
         (quiet_world (fun _ => false) diff_but_master)) = Ok tt
  /\ git_log (snd (empty_scope DEFAULT_REMOTE DEFAULT_BRANCH
                     "https://github.com/org/repo"
                     (quiet_world (fun _ => false) diff_but_master)))
     = [Repo_clone_from (Some "https://github.com/org/repo") "/tmp/tmpk3x9_ab1";
        Repo_open "/tmp/tmpk3x9_ab1"; index_diff "origin/main";
        index_commit commit_message; repo_remote "origin"; remote_push].
Proof.
  exact (empty_scope_remote DEFAULT_REMOTE DEFAULT_BRANCH
           "https://github.com/org/repo" "/tmp/tmpk3x9_ab1" GithubHTTPS
           (quiet_world (fun _ => false) diff_but_master)
           (fun _ _ => eq_refl) eq_refl ltac:(discriminate)).
Defined.

(** * The command line entry point *)

Section EntryPoint.

Variable E : Type.
Variable sys_argv : list string.
Variable parse_args : list string -> Main.outcome E string.

Let parse_options := Main.parse_options E sys_argv parse_args.

(** X20. [parse_options] hands the parser the second argument alone
    ([args[1:2]]): the program name and everything after the command are
    not looked at, and an argument vector that is absent or empty is
    replaced by [sys.argv]. *)
Theorem parse_options_reads_second_argument :
  (forall program command rest,
      parse_options (Some (program :: command :: rest)) = parse_args [command])
  /\ (forall program, parse_options (Some [program]) = parse_args [])
  /\ parse_options None = parse_options (Some [])
  /\ (sys_argv <> [] -> parse_options None = parse_options (Some sys_argv)).
Proof.
  unfold parse_options, Main.parse_options, Main.slice. cbn [Main.or_sys_argv].
  repeat split.
  intros Hne. destruct sys_argv; [congruence|reflexivity].
Qed.

Variable convert : Main.Command -> option (list string) -> Main.outcome E unit.

Let main := Main.main E sys_argv parse_args convert.

Lemma lookup_commands (command : string) :
  match Main.lookup command Main.commands with
  | Some module_ => In (command, module_) Main.commands
  | None => ~ In command (map fst Main.commands)
  end.
Proof.
  unfold Main.commands. cbn [Main.lookup map fst In].
  destruct (String.eqb_spec command "install") as [->|H1]; [now left|].
  destruct (String.eqb_spec command "uninstall") as [->|H2]; [now right; left|].
  destruct (String.eqb_spec command "venv") as [->|H3]; [now right; right; left|].
  destruct (String.eqb_spec command "replicate") as [->|H4];
    [now right; right; right; left|].
  intros [H|[H|[H|[H|[]]]]]; congruence.
Qed.

(** X21. When the parsed command is not one of [install], [uninstall],
    [venv] and [replicate], [main] raises [NameError] on the name [parser],
    which is bound in [parse_options] only: the help is not printed, the
    [ValueError] that names the command is never raised, and no command is
    run. *)
Theorem main_unrecognized_command (args : option (list string)) (command : string) :
  parse_options args = Main.Returns command ->
  ~ In command (map fst Main.commands) ->
  main args = Main.Raises (Main.NameError "parser").
Proof.
  intros Hp Hnot. unfold main, Main.main. fold parse_options. rewrite Hp.
  assert (Hl := lookup_commands command).
  destruct (Main.lookup command Main.commands) as [module_|].
  - exfalso. apply Hnot. now apply (in_map fst) in Hl.
  - reflexivity.
Qed.

(** X22. When the parsed command is a key of [commands], [main] is the
    [convert] of that command's module applied to the [args] that [main]
    itself was given: [None] when it was called without arguments, although
    [parse_options] read [sys.argv] in that case. *)
Theorem main_runs_command (args : option (list string)) (command : string)
    (module_ : Main.Command) :
  parse_options args = Main.Returns command ->
  In (command, module_) Main.commands ->
  main args = convert module_ args.
Proof.
  intros Hp Hin. unfold main, Main.main. fold parse_options. rewrite Hp.
  unfold Main.commands in Hin. cbn [In] in Hin.
  destruct Hin as [H|[H|[H|[H|[]]]]]; injection H as <- <-; reflexivity.
Qed.

End EntryPoint.

Lemma main_unrecognized_command_witness :
  Main.main exn ["nbcollection-ci"; "env"] (fun l => Main.Returns (hd "" l))
    (fun _ _ => Main.Returns tt) None
  = Main.Raises (Main.NameError "parser").
Proof.
  apply (main_unrecognized_command exn ["nbcollection-ci"; "env"]
           (fun l => Main.Returns (hd "" l)) (fun _ _ => Main.Returns tt) None "env").
  - reflexivity.
  - cbn [Main.commands map fst In]. intros [H|[H|[H|[H|[]]]]]; discriminate H.
Defined.

Lemma main_runs_command_witness :
  Main.main exn ["nbcollection-ci"; "venv"; "-h"] (fun l => Main.Returns (hd "" l))
    (fun m a => match m, a with
                | Main.venv, None => Main.Returns tt
                | _, _ => Main.Raises (Main.ValueError "other")
                end)
    None
  = Main.Returns tt.
Proof.
  apply (main_runs_command exn ["nbcollection-ci"; "venv"; "-h"]
           (fun l => Main.Returns (hd "" l))
           (fun m a => match m, a with
                       | Main.venv, None => Main.Returns tt
                       | _, _ => Main.Raises (Main.ValueError "other")
                       end)
           None "venv" Main.venv).
  - reflexivity.
  - right; right; left; reflexivity.
Defined.

Lemma parse_options_reads_second_argument_witness :
  Main.parse_options exn ["nbcollection-ci"; "install"] (fun l => Main.Returns (hd "" l)) None
  = Main.parse_options exn ["nbcollection-ci"; "install"] (fun l => Main.Returns (hd "" l))
      (Some ["nbcollection-ci"; "install"]).
Proof.
  apply (proj2 (proj2 (proj2 (parse_options_reads_second_argument exn
                                ["nbcollection-ci"; "install"]
                                (fun l => Main.Returns (hd "" l)))))).
  discriminate.
Defined.

(** * The remote matcher on every locator the parser accepts *)



















Lemma release_calls_in_order_witness :
  exists made rest r,
    _sync_repo_remote DEFAULT_REMOTE DEFAULT_BRANCH
      (session_of GithubGIT ["notebooks/foo.ipynb"]) broken_world
    = (r, set_log (git_log broken_world ++ made) broken_world)
    /\ release_calls "origin/master" (session_of GithubGIT ["notebooks/foo.ipynb"])
       = (made ++ rest)%list
    /\ (exists later, made = Repo_open "/tmp/tmpk3x9_ab1" :: later)
    /\ (r = Ok tt ->
        rest = []
        \/ rest = [index_commit commit_message; repo_remote "origin"; remote_push]).
Proof.
  exact (release_calls_in_order DEFAULT_REMOTE DEFAULT_BRANCH
           (session_of GithubGIT ["notebooks/foo.ipynb"]) broken_world).
Defined.
